(** * The fish identifier's upload / validate / submit / render logic

    A shallow embedding of [frontend/src/App.jsx]: the React state of the
    [App] component, its event handlers ([handleImageUpload], [handleSubmit],
    [handleReset], [fetchModelInfo]) and the JavaScript operations they rely
    on (property reads, truthiness, template literals, [Number.prototype.toFixed]).

    Handlers are state transformers.  The asynchronous parts of a handler
    (the [FileReader] callback, the continuation after the [await]s) are
    separate transformers that take the outcome the environment delivered. *)

From Stdlib Require Import Bool List String Ascii ZArith NArith QArith Qabs Lia.
From Stdlib Require Import Decimal DecimalString.
From Stdlib Require DecimalPos DecimalN.
Import ListNotations.

Set Warnings "-register-all".

Local Open Scope string_scope.
Local Open Scope Z_scope.

(** ** JavaScript numbers

    A finite double is a dyadic rational [m * 2^e]; the infinities are kept
    because [JSON.parse] produces them on overflow.  (NaN is not a JSON
    value, and no operation of the component computes one.) *)

Inductive number : Type :=
| Fin (m e : Z)
| Inf (negative : bool).

Definition value_of (m e : Z) : Q :=
  if 0 <=? e then inject_Z (m * 2 ^ e) else Qmake m (Z.to_pos (2 ^ (- e))).

(** [c1 >= c2] on numbers, as JavaScript compares them. *)
Definition num_geb (x y : number) : bool :=
  match x, y with
  | Inf false, _ => true
  | _, Inf true => true
  | Inf true, _ => false
  | _, Inf false => false
  | Fin m e, Fin m' e' => Qle_bool (value_of m' e') (value_of m e)
  end.

Definition num_is_zero (x : number) : bool :=
  match x with Fin m _ => m =? 0 | Inf _ => false end.

(** *** Decimal literals

    The Number a JSON (or source) literal denotes is the double nearest to
    its decimal value, ties going to the even significand. *)

(** [a / b] rounded to the nearest integer, ties to even ([0 < b]). *)
Definition round_half_even (a b : Z) : Z :=
  let k := a / b in
  let r := a mod b in
  match 2 * r ?= b with
  | Lt => k
  | Gt => k + 1
  | Eq => if Z.even k then k else k + 1
  end.

(** [floor (log2 (p / q))] for [0 < p], [0 < q] *)
Definition floor_log2_ratio (p q : Z) : Z :=
  let l := Z.log2 p - Z.log2 q in
  if (if 0 <=? l then q * 2 ^ l <=? p else q <=? p * 2 ^ (- l)) then l else l - 1.

(** The double nearest to [p / q], for [0 < p] and [0 < q]: a 53-bit
    significand, exponents from [-1074] up, and overflow to infinity. *)
Definition nearest_double_pos (p q : Z) : number :=
  let e := Z.max (floor_log2_ratio p q - 52) (- 1074) in
  let m := if 0 <=? e then round_half_even p (q * 2 ^ e)
           else round_half_even (p * 2 ^ (- e)) q in
  if 971 <? e + (if m =? 2 ^ 53 then 1 else 0) then Inf false else Fin m e.

Definition num_opp (x : number) : number :=
  match x with
  | Fin m e => Fin (- m) e
  | Inf b => Inf (negb b)
  end.

(** The literal [n * 10^k], as in [97.345 = 97345 * 10^-3]. *)
Definition literal (n k : Z) : number :=
  let p := Z.abs n * (if 0 <=? k then 10 ^ k else 1) in
  let q := if 0 <=? k then 1 else 10 ^ (- k) in
  if n =? 0 then Fin 0 0
  else if n <? 0 then num_opp (nearest_double_pos p q)
  else nearest_double_pos p q.

(** ** JavaScript values, as far as a parsed JSON body can hold them

    An object is the list of its own properties, each name once; [undefined]
    is what a read of a missing property gives. *)

Inductive Value : Type :=
| JUndefined
| JNull
| JBool (b : bool)
| JNum (x : number)
| JStr (s : string)
| JArr (items : list Value)
| JObj (fields : list (string * Value)).

(** ** Files *)

Record File : Type := mkFile {
  file_name : string;
  file_type : string;   (* the declared MIME type, [file.type] *)
  file_size : N         (* [file.size], in bytes *)
}.

(** ** The component's state: one field per [useState] *)

Record State : Type := mkState {
  image : option File;
  preview : option string;
  predictions : Value;
  loading : bool;
  error : option string;
  success : option string;
  modelInfo : Value;
  isDragging : bool
}.

(** [useState]'s initial values. *)
Definition initial : State :=
  {| image := None; preview := None; predictions := JArr [];
     loading := false; error := None; success := None;
     modelInfo := JNull; isDragging := false |}.

Definition setImage (v : option File) (s : State) : State :=
  {| image := v; preview := preview s; predictions := predictions s;
     loading := loading s; error := error s; success := success s;
     modelInfo := modelInfo s; isDragging := isDragging s |}.

Definition setPreview (v : option string) (s : State) : State :=
  {| image := image s; preview := v; predictions := predictions s;
     loading := loading s; error := error s; success := success s;
     modelInfo := modelInfo s; isDragging := isDragging s |}.

Definition setPredictions (v : Value) (s : State) : State :=
  {| image := image s; preview := preview s; predictions := v;
     loading := loading s; error := error s; success := success s;
     modelInfo := modelInfo s; isDragging := isDragging s |}.

Definition setLoading (v : bool) (s : State) : State :=
  {| image := image s; preview := preview s; predictions := predictions s;
     loading := v; error := error s; success := success s;
     modelInfo := modelInfo s; isDragging := isDragging s |}.

Definition setError (v : option string) (s : State) : State :=
  {| image := image s; preview := preview s; predictions := predictions s;
     loading := loading s; error := v; success := success s;
     modelInfo := modelInfo s; isDragging := isDragging s |}.

Definition setSuccess (v : option string) (s : State) : State :=
  {| image := image s; preview := preview s; predictions := predictions s;
     loading := loading s; error := error s; success := v;
     modelInfo := modelInfo s; isDragging := isDragging s |}.

Definition setModelInfo (v : Value) (s : State) : State :=
  {| image := image s; preview := preview s; predictions := predictions s;
     loading := loading s; error := error s; success := success s;
     modelInfo := v; isDragging := isDragging s |}.

Definition setIsDragging (v : bool) (s : State) : State :=
  {| image := image s; preview := preview s; predictions := predictions s;
     loading := loading s; error := error s; success := success s;
     modelInfo := modelInfo s; isDragging := v |}.

(** ** The image validator (the two guards of [handleImageUpload]) *)

Definition validTypes : list string :=
  ["image/jpeg"; "image/png"; "image/jpg"; "image/bmp"; "image/gif"; "image/webp"].

(** [Array.prototype.includes] on an array of strings. *)
Definition includes (l : list string) (x : string) : bool :=
  existsb (String.eqb x) l.

Definition maxSize : N := 16 * 1024 * 1024.

Inductive Reason : Type := InvalidFileType | FileTooLarge.

Inductive Validation : Type := Accepted | Rejected (r : Reason).

Definition reason_message (r : Reason) : string :=
  match r with
  | InvalidFileType => "Please upload a valid image file (JPEG, PNG, WebP, GIF)"
  | FileTooLarge => "File size too large. Maximum size is 16MB"
  end.

Definition validate (file : File) : Validation :=
  if negb (includes validTypes (file_type file)) then Rejected InvalidFileType
  else if (maxSize <? file_size file)%N then Rejected FileTooLarge
  else Accepted.

(** [handleImageUpload(file)]: the new state, and the file handed to
    [reader.readAsDataURL] when one is.  A missing file ([!file]) returns at
    once. *)
Definition handleImageUpload (file : option File) (s : State) : State * option File :=
  match file with
  | None => (s, None)
  | Some f =>
      match validate f with
      | Rejected r => (setError (Some (reason_message r)) s, None)
      | Accepted => (setPredictions (JArr []) (setError None s), Some f)
      end
  end.

(** [reader.onload] of [handleImageUpload]: the preview read of [file] ended
    with the data URL [result]. *)
Definition previewLoaded (file : File) (result : string) (s : State) : State :=
  setImage (Some file) (setPreview (Some result) s).

(** [handleReset].  (The file input's value lives in the DOM, outside the
    component's state.) *)
Definition handleReset (s : State) : State :=
  setSuccess None (setError None (setPredictions (JArr [])
    (setPreview None (setImage None s)))).

Definition handleDragOver (s : State) : State := setIsDragging true s.
Definition handleDragLeave (s : State) : State := setIsDragging false s.

(** ** What the JavaScript engine decides

    The wording of the engine's own [TypeError]s and the decimal form of a
    number ([Number::toString]) are the engine's, not the component's. *)

Record Runtime : Type := mkRuntime {
  (* reading property [prop] of [undefined] or [null] *)
  cannot_read : Value -> string -> string;
  (* calling [callee], which is not a function *)
  not_a_function : string -> string;
  (* an object with no usable [toString] / [valueOf] *)
  cannot_convert : string;
  (* Number::toString *)
  number_to_string : number -> string
}.

(** ** Completions: a value, or a thrown one *)

Inductive Thrown : Type :=
| ErrorObject (message : string)  (* Error, TypeError, SyntaxError: [err.message] is a string *)
| ProgressEvent.                  (* what [reader.onerror] rejects with: no [message] *)

Inductive Completion (A : Type) : Type :=
| Normal (a : A)
| Throw (t : Thrown).
Arguments Normal {A} a.
Arguments Throw {A} t.

Definition cbind {A B} (c : Completion A) (k : A -> Completion B) : Completion B :=
  match c with
  | Normal a => k a
  | Throw t => Throw t
  end.

(** Statements of an [async] body: they update the state and may throw; what
    was set before a throw stays set. *)
Definition M (A : Type) : Type := State -> State * Completion A.

Definition ret {A} (a : A) : M A := fun s => (s, Normal a).
Definition throw {A} (t : Thrown) : M A := fun s => (s, Throw t).
Definition eval {A} (c : Completion A) : M A := fun s => (s, c).
Definition call (f : State -> State) : M unit := fun s => (f s, Normal tt).

Definition bind {A B} (m : M A) (k : A -> M B) : M B :=
  fun s =>
    match m s with
    | (s', Normal a) => k a s'
    | (s', Throw t) => (s', Throw t)
    end.

(** [try { body } catch (err) { handler(err) }] *)
Definition try_catch {A} (body : M A) (handler : Thrown -> M A) : M A :=
  fun s =>
    match body s with
    | (s', Normal a) => (s', Normal a)
    | (s', Throw t) => handler t s'
    end.

(** [... finally { cleanup }], for a [cleanup] that does not throw *)
Definition finally {A} (body : M A) (cleanup : State -> State) : M A :=
  fun s => let (s', c) := body s in (cleanup s', c).

Declare Scope js_scope.
Delimit Scope js_scope with js.
Notation "x <- m ;; k" := (bind m (fun x => k))
  (at level 61, m at next level, right associativity) : js_scope.
Notation "m ;;; k" := (bind m (fun _ => k))
  (at level 61, right associativity) : js_scope.

(** ** Property reads, truthiness, [||], [ToString] *)

Fixpoint lookup (p : string) (fields : list (string * Value)) : option Value :=
  match fields with
  | [] => None
  | (k, v) :: rest => if String.eqb k p then Some v else lookup p rest
  end.

Definition has_own (p : string) (fields : list (string * Value)) : bool :=
  match lookup p fields with Some _ => true | None => false end.

(** [v.p], for the property names the component reads ([error], [success],
    [predictions], [top_prediction], [species], [confidence]): none of them
    is inherited from a prototype, so on anything but [undefined] and [null]
    the read gives the own property, or [undefined]. *)
Definition get (rt : Runtime) (v : Value) (p : string) : Completion Value :=
  match v with
  | JUndefined | JNull => Throw (ErrorObject (cannot_read rt v p))
  | JObj fields => Normal (match lookup p fields with Some x => x | None => JUndefined end)
  | _ => Normal JUndefined
  end.

Definition truthy (v : Value) : bool :=
  match v with
  | JUndefined | JNull => false
  | JBool b => b
  | JNum x => negb (num_is_zero x)
  | JStr s => negb (String.eqb s "")
  | JArr _ | JObj _ => true
  end.

(** [a || b] *)
Definition js_or (a b : Value) : Value := if truthy a then a else b.

(** [s || d] where [s] is a string or [undefined] *)
Definition or_default (s : option string) (d : string) : string :=
  match s with
  | Some m => if String.eqb m "" then d else m
  | None => d
  end.

Fixpoint join (parts : list string) : string :=
  match parts with
  | [] => ""
  | [p] => p
  | p :: rest => p ++ "," ++ join rest
  end.

Fixpoint sequence {A} (cs : list (Completion A)) : Completion (list A) :=
  match cs with
  | [] => Normal []
  | c :: rest =>
      cbind c (fun a => cbind (sequence rest) (fun l => Normal (a :: l)))
  end.

(** [ToString(v)].  An array joins its elements ([undefined] and [null] as
    the empty string); an object parsed from JSON has no callable own
    property, so one that shadows [toString] cannot be converted. *)
Fixpoint to_string (rt : Runtime) (v : Value) : Completion string :=
  match v with
  | JUndefined => Normal "undefined"
  | JNull => Normal "null"
  | JBool true => Normal "true"
  | JBool false => Normal "false"
  | JNum x => Normal (number_to_string rt x)
  | JStr s => Normal s
  | JArr items =>
      cbind (sequence (map (fun item =>
                              match item with
                              | JUndefined | JNull => Normal ""
                              | _ => to_string rt item
                              end) items))
            (fun parts => Normal (join parts))
  | JObj fields =>
      if has_own "toString" fields then Throw (ErrorObject (cannot_convert rt))
      else Normal "[object Object]"
  end.

(** [new Error(v)], for a [v] that is not [undefined] *)
Definition new_Error (rt : Runtime) (v : Value) : Completion Thrown :=
  cbind (to_string rt v) (fun m => Normal (ErrorObject m)).

(** [err.message] *)
Definition message_of (t : Thrown) : option string :=
  match t with
  | ErrorObject m => Some m
  | ProgressEvent => None
  end.

(** ** [Number.prototype.toFixed(2)] *)

(** The integer [n] for which [n / 100 - |m * 2^e|] is as close to zero as
    possible, the larger one when two are as close. *)
Definition hundredths (m e : Z) : Z :=
  if 0 <=? e then 100 * Z.abs m * 2 ^ e
  else (200 * Z.abs m + 2 ^ (- e)) / (2 * 2 ^ (- e)).

Definition digits (n : Z) : string :=
  NilZero.string_of_uint (N.to_uint (Z.to_N n)).

Definition digit (n : Z) : ascii :=
  ascii_of_N (48 + Z.to_N n).

(** [n / 100] written with two decimals: the decimal digits of [n], padded
    with zeros to three at least, with a point before the last two; that is,
    the digits of the quotient by 100, a point, and the two digits of the
    remainder. *)
Definition fixed2 (n : Z) : string :=
  digits (n / 100) ++ "." ++
  String (digit ((n mod 100) / 10)) (String (digit (n mod 10)) "").

(** [|m * 2^e| >= 10^21] *)
Definition at_least_1e21 (m e : Z) : bool :=
  if 0 <=? e then 10 ^ 21 <=? Z.abs m * 2 ^ e
  else 10 ^ 21 * 2 ^ (- e) <=? Z.abs m.

Definition toFixed2 (rt : Runtime) (x : number) : string :=
  match x with
  | Inf _ => number_to_string rt x
  | Fin m e =>
      let sign := if m <? 0 then "-" else "" in
      if at_least_1e21 m e then sign ++ number_to_string rt (Fin (Z.abs m) e)
      else sign ++ fixed2 (hundredths m e)
  end.

(** [v.toFixed(2)], the callee being written [callee] in the source: only a
    number has the method. *)
Definition call_toFixed2 (rt : Runtime) (callee : string) (v : Value) : Completion string :=
  match v with
  | JUndefined | JNull => Throw (ErrorObject (cannot_read rt v "toFixed"))
  | JNum x => Normal (toFixed2 rt x)
  | _ => Throw (ErrorObject (not_a_function rt callee))
  end.

(** Reading such a text back, in hundredths: ["97.34"] is [9734]. *)

Definition is_digit (c : ascii) : bool :=
  ((48 <=? N_of_ascii c) && (N_of_ascii c <=? 57))%N.

Fixpoint all_digits (s : string) : bool :=
  match s with
  | EmptyString => true
  | String c rest => is_digit c && all_digits rest
  end.

Definition digit_value (c : ascii) : Z := Z.of_N (N_of_ascii c) - 48.

(** The text before the first point, and the text after it. *)
Fixpoint split_point (s : string) : option (string * string) :=
  match s with
  | EmptyString => None
  | String c rest =>
      if Ascii.eqb c "."%char then Some (EmptyString, rest)
      else match split_point rest with
           | Some (before, after) => Some (String c before, after)
           | None => None
           end
  end.

Definition read_fixed2 (s : string) : option Z :=
  match split_point s with
  | Some (whole, String d1 (String d2 EmptyString)) =>
      match NilZero.uint_of_string whole with
      | Some u =>
          if all_digits whole && is_digit d1 && is_digit d2
          then Some (100 * Z.of_N (N.of_uint u) + 10 * digit_value d1 + digit_value d2)
          else None
      | None => None
      end
  | _ => None
  end.

(** ** [handleSubmit] *)

(** Up to the first [await]: the guard, then the three setters.  The second
    component is the image whose read was started, when one was. *)
Definition handleSubmit (s : State) : State * option File :=
  match image s with
  | None => (setError (Some "Please select an image first") s, None)
  | Some img => (setSuccess None (setError None (setLoading true s)), Some img)
  end.

(** What the environment delivers to the three [await]s. *)
Inductive Outcome : Type :=
| ReadFailed                                (* [reader.onerror] *)
| FetchFailed (message : string)            (* [fetch] rejects *)
| JsonFailed (ok : bool) (message : string) (* [response.json()] rejects *)
| Responded (ok : bool) (data : Value).     (* [response.ok] and the parsed body *)

Local Open Scope js_scope.

(** [throw new Error(data.error || "Prediction failed")] *)
Definition throw_prediction_failed (rt : Runtime) (data : Value) : M unit :=
  e <- eval (get rt data "error") ;;
  err <- eval (new_Error rt (js_or e (JStr "Prediction failed"))) ;;
  throw err.

(** The template literal of [setSuccess]: each substitution is evaluated and
    converted in turn. *)
Definition summary (rt : Runtime) (data : Value) : Completion string :=
  cbind (get rt data "top_prediction") (fun top =>
  cbind (get rt top "species") (fun species =>
  cbind (to_string rt species) (fun s1 =>
  cbind (get rt data "top_prediction") (fun top' =>
  cbind (get rt top' "confidence") (fun confidence =>
  cbind (call_toFixed2 rt "data.top_prediction.confidence.toFixed" confidence) (fun s2 =>
  Normal ("Identified as " ++ s1 ++ " with " ++ s2 ++ "% confidence"))))))).

(** The [try] block, from the first [await] on. *)
Definition submitBody (rt : Runtime) (o : Outcome) : M unit :=
  match o with
  | ReadFailed => throw ProgressEvent
  | FetchFailed m => throw (ErrorObject m)
  | JsonFailed _ m => throw (ErrorObject m)
  | Responded ok data =>
      if negb ok then throw_prediction_failed rt data
      else
        flag <- eval (get rt data "success") ;;
        if truthy flag then
          p <- eval (get rt data "predictions") ;;
          call (setPredictions p) ;;;
          msg <- eval (summary rt data) ;;
          call (setSuccess (Some msg))
        else throw_prediction_failed rt data
  end.

(** [catch (err) { setError(err.message || "An error occurred during prediction") }] *)
Definition submitCatch (err : Thrown) : M unit :=
  call (setError (Some (or_default (message_of err) "An error occurred during prediction"))).

(** The rest of [handleSubmit], once the environment has answered. *)
Definition handleSubmit_settled (rt : Runtime) (o : Outcome) (s : State) : State :=
  fst (finally (try_catch (submitBody rt o) submitCatch) (setLoading false) s).

(** ** [fetchModelInfo] *)

Inductive InfoOutcome : Type :=
| InfoFailed (err : Thrown)    (* [fetch] or [response.json()] rejects *)
| InfoLoaded (data : Value).

(** The new state, and what was written to [console.error]. *)
Definition fetchModelInfo (o : InfoOutcome) (s : State) : State * list (string * Thrown) :=
  match o with
  | InfoLoaded data => (setModelInfo data s, [])
  | InfoFailed err => (s, [("Failed to fetch model info:", err)])
  end.

(** ** The submission's status

    The component keeps no status field; the spec's status is read off the
    state: a request in flight is [Submitting]; otherwise a displayed error
    is [Failed], a displayed summary [Succeeded], a stored image [Ready], and
    nothing at all [Empty].  [Validating] lasts no longer than the
    synchronous checks of [handleImageUpload] and is never observed. *)

Inductive Status : Type :=
| Empty | Validating | Ready | Submitting | Succeeded | Failed.

Definition is_some {A} (o : option A) : bool :=
  match o with Some _ => true | None => false end.

Definition status (s : State) : Status :=
  if loading s then Submitting
  else if is_some (error s) then Failed
  else if is_some (success s) then Succeeded
  else if is_some (image s) then Ready
  else Empty.

(** ** Events and runs *)

Inductive Event : Type :=
| FileSelected (file : option File)              (* [handleFileInput], [handleDrop] *)
| PreviewLoaded (file : File) (result : string)  (* [reader.onload] *)
| SubmitClicked
| SubmitSettled (o : Outcome)
| ResetClicked
| ModelInfoSettled (o : InfoOutcome)
| DragOver
| DragLeave.

Definition handle (rt : Runtime) (ev : Event) (s : State) : State :=
  match ev with
  | FileSelected file => fst (handleImageUpload file s)
  | PreviewLoaded file result => previewLoaded file result s
  | SubmitClicked => fst (handleSubmit s)
  | SubmitSettled o => handleSubmit_settled rt o s
  | ResetClicked => handleReset s
  | ModelInfoSettled o => fst (fetchModelInfo o s)
  | DragOver => handleDragOver s
  | DragLeave => handleDragLeave s
  end.

Definition run (rt : Runtime) (evs : list Event) (s : State) : State :=
  fold_left (fun st ev => handle rt ev st) evs s.

(** The states the component can be in: those a sequence of events leads to
    from the initial one.  Events are taken in any order; what the page
    hides or disables only removes runs. *)
Inductive reachable (rt : Runtime) : State -> Prop :=
| reachable_initial : reachable rt initial
| reachable_step s ev : reachable rt s -> reachable rt (handle rt ev s).

(** ** The prediction list as displayed *)

(** The list the results card shows: [predictions[0]], then
    [predictions.slice(1)]. *)
Definition displayed (s : State) : list Value :=
  match predictions s with
  | JArr items => items
  | _ => []
  end.

(** [pred.confidence], when it is a number *)
Definition confidence_of (pred : Value) : option number :=
  match pred with
  | JObj fields =>
      match lookup "confidence" fields with
      | Some (JNum c) => Some c
      | _ => None
      end
  | _ => None
  end.

(** [c1 >= c2 >= ...] along a list of predictions *)
Fixpoint descending (preds : list Value) : bool :=
  match preds with
  | p :: (q :: _) as rest =>
      match confidence_of p, confidence_of q with
      | Some c, Some d => num_geb c d && descending rest
      | _, _ => false
      end
  | _ => true
  end.


(** ** Accepted answers *)

(** The answer is accepted as a success when the request went through with
    an OK status, [data.success] is truthy and the summary can be built. *)
Definition accepted (rt : Runtime) (o : Outcome) : bool :=
  match o with
  | Responded true data =>
      match get rt data "success", summary rt data with
      | Normal flag, Normal _ => truthy flag
      | _, _ => false
      end
  | _ => false
  end.

(** [data.predictions] of an answer *)
Definition service_predictions (o : Outcome) : Value :=
  match o with
  | Responded _ (JObj fields) =>
      match lookup "predictions" fields with Some v => v | None => JUndefined end
  | _ => JUndefined
  end.

Definition items_of (v : Value) : list Value :=
  match v with JArr items => items | _ => [] end.

(** ** One engine: V8

    The wording of V8's [TypeError]s, and ECMAScript's [Number::toString]:
    the shortest decimal that reads back as the same double, written
    plainly up to 21 integer digits and down to six leading zeros, and with
    an exponent beyond. *)

Module V8.

Definition cannot_read (base : Value) (prop : string) : string :=
  "Cannot read properties of " ++
  (match base with JNull => "null" | _ => "undefined" end) ++
  " (reading '" ++ prop ++ "')".

Definition not_a_function (callee : string) : string :=
  callee ++ " is not a function".

Definition cannot_convert : string :=
  "Cannot convert object to primitive value".

(** [x < 10^n] for [x = p / q] *)
Definition below_pow10 (p q n : Z) : bool :=
  if 0 <=? n then p <? q * 10 ^ n else p * 10 ^ (- n) <? q.

(** The least [n] from [n0] on with [p / q < 10^n]. *)
Fixpoint magnitude (fuel : nat) (p q n0 : Z) : Z :=
  match fuel with
  | O => n0
  | S fuel' => if below_pow10 p q n0 then n0 else magnitude fuel' p q (n0 + 1)
  end.

Definition same_number (x y : number) : bool :=
  match x, y with
  | Fin m e, Fin m' e' => Qeq_bool (value_of m e) (value_of m' e')
  | Inf a, Inf b => Bool.eqb a b
  | _, _ => false
  end.

(** The [k]-digit decimal [s * 10^(n-k)] that reads back as [p / q],
    the nearer one when two do. *)
Definition candidate (m e p q n k : Z) : option Z :=
  let t := n - k in
  let lo := if 0 <=? t then p / (q * 10 ^ t) else (p * 10 ^ (- t)) / q in
  let hi := lo + 1 in
  let ok s := (0 <? s) && same_number (literal s t) (Fin m e) in
  (* twice the distance of [p / q] to the midpoint of [lo] and [hi], signed *)
  let side := if 0 <=? t then 2 * p ?= (2 * lo + 1) * (q * 10 ^ t)
              else 2 * (p * 10 ^ (- t)) ?= (2 * lo + 1) * q in
  match ok lo, ok hi with
  | true, true =>
      match side with
      | Lt => Some lo
      | Gt => Some hi
      | Eq => Some (if Z.even lo then lo else hi)
      end
  | true, false => Some lo
  | false, true => Some hi
  | false, false => None
  end.

Fixpoint shortest (fuel : nat) (m e p q n k : Z) : Z * Z :=
  match fuel with
  | O => (k, if 0 <=? n - k then p / (q * 10 ^ (n - k)) else (p * 10 ^ (k - n)) / q)
  | S fuel' =>
      match candidate m e p q n k with
      | Some s => (k, s)
      | None => shortest fuel' m e p q n (k + 1)
      end
  end.

Fixpoint zeros (n : nat) : string :=
  match n with O => "" | S n' => String "0" (zeros n') end.

Definition exponent_part (n : Z) : string :=
  "e" ++ (if 0 <=? n - 1 then "+" else "-") ++ digits (Z.abs (n - 1)).

(** The text of [s * 10^(n-k)], [s] having [k] digits. *)
Definition layout (s k n : Z) : string :=
  let d := digits s in
  if (k <=? n) && (n <=? 21) then d ++ zeros (Z.to_nat (n - k))
  else if (0 <? n) && (n <=? 21) then
    substring 0 (Z.to_nat n) d ++ "." ++ substring (Z.to_nat n) (Z.to_nat (k - n)) d
  else if (-6 <? n) && (n <=? 0) then "0." ++ zeros (Z.to_nat (- n)) ++ d
  else if k =? 1 then d ++ exponent_part n
  else substring 0 1 d ++ "." ++ substring 1 (Z.to_nat (k - 1)) d ++ exponent_part n.

Definition positive_to_string (m e : Z) : string :=
  let p := if 0 <=? e then m * 2 ^ e else m in
  let q := if 0 <=? e then 1 else 2 ^ (- e) in
  let n := magnitude 4 p q ((floor_log2_ratio p q * 30103) / 100000 - 1) in
  let (k, s) := shortest 17 m e p q n 1 in
  if s =? 10 ^ k then layout (10 ^ (k - 1)) k (n + 1) else layout s k n.

Definition number_to_string (x : number) : string :=
  match x with
  | Inf false => "Infinity"
  | Inf true => "-Infinity"
  | Fin m e =>
      if m =? 0 then "0"
      else if m <? 0 then "-" ++ positive_to_string (- m) e
      else positive_to_string m e
  end.

End V8.

Definition v8 : Runtime :=
  {| cannot_read := V8.cannot_read;
     not_a_function := V8.not_a_function;
     cannot_convert := V8.cannot_convert;
     number_to_string := V8.number_to_string |}.


(** ** The spec's scenario *)

Definition fish_png : File :=
  {| file_name := "fish.png"; file_type := "image/png"; file_size := 2 * 1024 * 1024 |}.

Definition prediction (class_id : Z) (species : string) (confidence : number) : Value :=
  JObj [("class_id", JNum (literal class_id 0)); ("species", JStr species);
        ("confidence", JNum confidence)].

Definition salmon : Value := prediction 1 "Salmon" (literal 97345 (-3)).
Definition trout : Value := prediction 2 "Trout" (literal 2655 (-3)).

(** The response of the scenario, as the spec writes it. *)
Definition scenario_response : Value :=
  JObj [("success", JBool true); ("predictions", JArr [salmon; trout])].

(** The same with the [top_prediction] field of the service's contract. *)
Definition scenario_response_with_top : Value :=
  JObj [("success", JBool true); ("predictions", JArr [salmon; trout]);
        ("top_prediction",
         JObj [("species", JStr "Salmon"); ("confidence", JNum (literal 97345 (-3)))])].

(** [fish.png] selected, its preview loaded, and submitted. *)
Definition submitting : State :=
  run v8 [FileSelected (Some fish_png);
          PreviewLoaded fish_png "data:image/png;base64,iVBORw0KGgo=";
          SubmitClicked] initial.


(** A text file, and a JPEG of 20 MB. *)
Definition notes_txt : File :=
  {| file_name := "notes.txt"; file_type := "text/plain"; file_size := 120 |}.

Definition big_jpeg : File :=
  {| file_name := "big.jpg"; file_type := "image/jpeg"; file_size := 20 * 1024 * 1024 |}.

(** [[]] *)
Definition no_predictions : Value := JArr [].

(** The answer [{success: false, error: "too blurry"}]. *)
Definition too_blurry : Value :=
  JObj [("success", JBool false); ("error", JStr "too blurry")].

(** An answer whose list is in ascending order. *)
Definition unsorted_response : Value :=
  JObj [("success", JBool true); ("predictions", JArr [trout; salmon]);
        ("top_prediction",
         JObj [("species", JStr "Salmon"); ("confidence", JNum (literal 97345 (-3)))])].

(** The answer [{success: true, predictions: []}], as the spec writes it. *)
Definition empty_list_response : Value :=
  JObj [("success", JBool true); ("predictions", JArr [])].

(** The same with a [top_prediction]. *)
Definition empty_list_response_with_top : Value :=
  JObj [("success", JBool true); ("predictions", JArr []);
        ("top_prediction",
         JObj [("species", JStr "Salmon"); ("confidence", JNum (literal 97345 (-3)))])].

(** A submission that was reset while its request was in flight, once the
    request has been answered: the page shows the drop zone again, and the
    answer's predictions. *)
Definition answered_after_reset : State :=
  run v8 [FileSelected (Some fish_png);
          PreviewLoaded fish_png "data:image/png;base64,iVBORw0KGgo=";
          SubmitClicked;
          ResetClicked;
          SubmitSettled (Responded true scenario_response_with_top)] initial.

(** ** Dropping and picking files *)

(** [handleDrop]: [event.dataTransfer.files] is the list [files]; only
    [files[0]] is looked at. *)
Definition handleDrop (files : list File) (s : State) : State * option File :=
  let s1 := setIsDragging false s in
  match files with
  | file :: _ => handleImageUpload (Some file) s1
  | [] => (s1, None)
  end.

(** [handleFileInput], on [event.target.files] *)
Definition handleFileInput (files : list File) (s : State) : State * option File :=
  match files with
  | file :: _ => handleImageUpload (Some file) s
  | [] => (s, None)
  end.

(** ** What the page offers

    The JSX tests [preview], [error] and [success] for truthiness: a string
    counts when it is not empty. *)

Definition shown (o : option string) : bool :=
  match o with
  | Some text => negb (String.eqb text "")
  | None => false
  end.

(** [!preview ? (drop zone, file input) : (image, Change Image, Identify)];
    the reset button is under [preview &&]. *)
Definition dropZoneRendered (s : State) : bool := negb (shown (preview s)).
Definition previewRendered (s : State) : bool := shown (preview s).

(** [disabled={loading}] on the Identify button *)
Definition submitEnabled (s : State) : bool := previewRendered s && negb (loading s).

(** [triggerFileInput]: [fileInputRef.current?.click()].  The ref points to
    the file input while that is rendered and is [null] otherwise; the
    result tells whether the picker was opened. *)
Definition triggerFileInput (s : State) : bool := dropZoneRendered s.

(** ** The results card, for an array in [predictions]

    [(predictions.length > 0 || loading) && (loading ? spinner : predictions.length > 0 && ...)]:
    the values the JSX expressions evaluate to, in the order they are
    evaluated; a throw aborts the render. *)

Record TopMatch : Type := mkTopMatch {
  top_species : Value;        (* [predictions[0].species] *)
  top_confidence : string;    (* [predictions[0].confidence.toFixed(2)] *)
  top_width : string          (* [`${predictions[0].confidence}%`] *)
}.

Record Row : Type := mkRow {
  row_key : Value;            (* [pred.class_id] *)
  row_rank : Z;               (* [index + 2] *)
  row_species : Value;        (* [pred.species] *)
  row_width : string;         (* [`${pred.confidence}%`] *)
  row_confidence : string     (* [pred.confidence.toFixed(2)] *)
}.

Inductive Card : Type :=
| NoCard
| Spinner
| Results (top : TopMatch) (rows : list Row).

Definition topMatch (rt : Runtime) (pred : Value) : Completion TopMatch :=
  cbind (get rt pred "species") (fun species =>
  cbind (get rt pred "confidence") (fun c =>
  cbind (call_toFixed2 rt "predictions[0].confidence.toFixed" c) (fun text =>
  cbind (get rt pred "confidence") (fun c' =>
  cbind (to_string rt c') (fun w =>
  Normal {| top_species := species; top_confidence := text; top_width := w ++ "%" |}))))).

(** The callback of [predictions.slice(1).map].  (The key is read first
    under the classic JSX transform and last under the automatic one; only
    the property named in the [TypeError] for a [null] prediction depends on
    that.) *)
Definition row (rt : Runtime) (pred : Value) (index : Z) : Completion Row :=
  cbind (get rt pred "class_id") (fun key =>
  cbind (get rt pred "species") (fun species =>
  cbind (get rt pred "confidence") (fun c =>
  cbind (to_string rt c) (fun w =>
  cbind (get rt pred "confidence") (fun c' =>
  cbind (call_toFixed2 rt "pred.confidence.toFixed" c') (fun text =>
  Normal {| row_key := key; row_rank := index + 2; row_species := species;
            row_width := w ++ "%"; row_confidence := text |})))))).

(** [array.map(callback)], the first element having index [index] *)
Fixpoint map_from (rt : Runtime) (index : Z) (preds : list Value) : list (Completion Row) :=
  match preds with
  | [] => []
  | pred :: rest => row rt pred index :: map_from rt (index + 1) rest
  end.

Definition resultsCard (rt : Runtime) (items : list Value) (loading : bool) : Completion Card :=
  if loading then Normal Spinner
  else
    match items with
    | [] => Normal NoCard
    | first :: rest =>
        cbind (topMatch rt first) (fun top =>
        cbind (sequence (map_from rt 0 rest)) (fun rows =>
        Normal (Results top rows)))
    end.

(** [pred.name], as [get] reads it when it does not throw *)
Definition field (name : string) (pred : Value) : Value :=
  match pred with
  | JObj fields => match lookup name fields with Some v => v | None => JUndefined end
  | _ => JUndefined
  end.

(** [pred.confidence.toFixed(2)], when the confidence is a number *)
Definition confidence_text (rt : Runtime) (pred : Value) : option string :=
  match confidence_of pred with
  | Some c => Some (toFixed2 rt c)
  | None => None
  end.

(** The explicit failures: everything but an OK answer with a truthy
    [success]. *)
Definition explicit_failure (rt : Runtime) (o : Outcome) : bool :=
  match o with
  | Responded true data =>
      match get rt data "success" with
      | Normal flag => negb (truthy flag)
      | Throw _ => true
      end
  | _ => true
  end.

(** ** The page and its pending operations

    The component's state together with what the environment still owes it:
    the preview reads started by [handleImageUpload], the requests started
    by [handleSubmit] (each with the image it captured) and the request of
    [fetchModelInfo] sent on mount. *)

Record World : Type := mkWorld {
  ui : State;
  readers : list File;
  requests : list File;
  infoPending : bool
}.

Definition mounted : World :=
  {| ui := initial; readers := []; requests := []; infoPending := true |}.

Definition with_ui (s : State) (w : World) : World :=
  {| ui := s; readers := readers w; requests := requests w; infoPending := infoPending w |}.

Definition started (file : option File) : list File :=
  match file with Some f => [f] | None => [] end.

Fixpoint remove_nth {A} (i : nat) (l : list A) : list A :=
  match i, l with
  | _, [] => []
  | O, _ :: rest => rest
  | S j, x :: rest => x :: remove_nth j rest
  end.

(** What the user and the environment can do. *)
Inductive Action : Type :=
| Drop (files : list File)                (* a drop on the drop zone *)
| Pick (files : list File)                (* a choice in the picker [triggerFileInput] opens *)
| Drag                                    (* [onDragOver] *)
| Undrag                                  (* [onDragLeave] *)
| ReadDone (i : nat) (result : string)    (* [onload] of the [i]th pending read *)
| ReadError (i : nat)                     (* its failure: no handler is set *)
| ClickSubmit
| Answer (i : nat) (o : Outcome)          (* the [i]th request is settled *)
| ClickReset
| InfoAnswer (o : InfoOutcome).

(** The world after an action, or [None] when the page does not offer it:
    the drop zone and the file input are there only without a preview; the
    reset, Change Image and Identify buttons only with one, the last being
    disabled while loading.  A click on the drop zone or on Change Image
    calls [triggerFileInput] and changes nothing by itself.
    [readAsDataURL] gives a text that starts with ["data:"]. *)
Definition act (rt : Runtime) (a : Action) (w : World) : option World :=
  let s := ui w in
  match a with
  | Drop files =>
      if dropZoneRendered s then
        let (s', file) := handleDrop files s in
        Some {| ui := s'; readers := readers w ++ started file;
                requests := requests w; infoPending := infoPending w |}
      else None
  | Pick files =>
      if triggerFileInput s then
        let (s', file) := handleFileInput files s in
        Some {| ui := s'; readers := readers w ++ started file;
                requests := requests w; infoPending := infoPending w |}
      else None
  | Drag => if dropZoneRendered s then Some (with_ui (handleDragOver s) w) else None
  | Undrag => if dropZoneRendered s then Some (with_ui (handleDragLeave s) w) else None
  | ReadDone i result =>
      match nth_error (readers w) i with
      | Some file =>
          if String.prefix "data:" result then
            Some {| ui := previewLoaded file result s; readers := remove_nth i (readers w);
                    requests := requests w; infoPending := infoPending w |}
          else None
      | None => None
      end
  | ReadError i =>
      match nth_error (readers w) i with
      | Some _ =>
          Some {| ui := s; readers := remove_nth i (readers w);
                  requests := requests w; infoPending := infoPending w |}
      | None => None
      end
  | ClickSubmit =>
      if submitEnabled s then
        let (s', img) := handleSubmit s in
        Some {| ui := s'; readers := readers w;
                requests := requests w ++ started img; infoPending := infoPending w |}
      else None
  | Answer i o =>
      match nth_error (requests w) i with
      | Some _ =>
          Some {| ui := handleSubmit_settled rt o s; readers := readers w;
                  requests := remove_nth i (requests w); infoPending := infoPending w |}
      | None => None
      end
  | ClickReset => if previewRendered s then Some (with_ui (handleReset s) w) else None
  | InfoAnswer o =>
      if infoPending w then
        Some {| ui := fst (fetchModelInfo o s); readers := readers w;
                requests := requests w; infoPending := false |}
      else None
  end.

(** The worlds the page can be in. *)
Inductive ui_reachable (rt : Runtime) : World -> Prop :=
| ui_reachable_mounted : ui_reachable rt mounted
| ui_reachable_act w a w' :
    ui_reachable rt w -> act rt a w = Some w' -> ui_reachable rt w'.

Fixpoint run_actions (rt : Runtime) (actions : list Action) (w : World) : option World :=
  match actions with
  | [] => Some w
  | a :: rest =>
      match act rt a w with
      | Some w' => run_actions rt rest w'
      | None => None
      end
  end.

Definition validated (file : File) : Prop := validate file = Accepted.

(** What every world of the page satisfies (see [ui_reachable_ok]). *)
Definition world_ok (w : World) : Prop :=
  (List.length (requests w) <= 1)%nat /\
  (loading (ui w) = true <-> requests w <> []) /\
  Forall validated (readers w) /\
  Forall validated (requests w) /\
  (forall file, image (ui w) = Some file -> validated file) /\
  previewRendered (ui w) = is_some (image (ui w)).

(** [fish.png] dropped and read: the Identify button is there. *)
Definition ready_world : World :=
  {| ui := previewLoaded fish_png "data:image/png;base64,iVBORw0KGgo="
             (setPredictions (JArr []) (setError None initial));
     readers := []; requests := []; infoPending := true |}.

(** * Properties *)

(** ** Samples *)

Example literal_samples :
  literal 97345 (-3) = Fin 6850045401974702 (-46) /\
  literal 2655 (-3) = Fin 5978528505334333 (-51) /\
  literal 1 0 = Fin 4503599627370496 (-52) /\
  literal 1 400 = Inf false.
Proof. repeat split. Qed.

Example toFixed2_samples :
  map (toFixed2 v8)
      [literal 97345 (-3); literal 2655 (-3); literal 1005 (-3); literal 8345 (-3);
       literal 0 0; literal 5 (-3); literal (-1) (-3); literal 100 0; literal 1 21]
  = ["97.34"; "2.65"; "1.00"; "8.35"; "0.00"; "0.01"; "-0.00"; "100.00"; "1e+21"].
Proof. reflexivity. Qed.

Example number_to_string_samples :
  map V8.number_to_string
      [literal 97345 (-3); literal 100 0; literal (-15) (-1); literal 1 (-6);
       literal 1 (-7); literal 12345678901234567890 1; literal 1 21; literal 1 23;
       literal 5 (-324); literal 17976931348623157 292]
  = ["97.345"; "100"; "-1.5"; "0.000001"; "1e-7"; "123456789012345680000"; "1e+21";
     "1e+23"; "5e-324"; "1.7976931348623157e+308"].
Proof. reflexivity. Qed.

Example to_string_samples :
  map (to_string v8)
      [JStr "Salmon"; JNull; JBool true; JArr [JNum (literal 1 0); JNull; JStr "a"];
       JObj [("species", JStr "Salmon")]; JObj [("toString", JNull)]]
  = [Normal "Salmon"; Normal "null"; Normal "true"; Normal "1,,a";
     Normal "[object Object]";
     Throw (ErrorObject "Cannot convert object to primitive value")].
Proof. reflexivity. Qed.

Example submitting_state :
  submitting =
  {| image := Some fish_png; preview := Some "data:image/png;base64,iVBORw0KGgo=";
     predictions := JArr []; loading := true; error := None; success := None;
     modelInfo := JNull; isDragging := false |}.
Proof. reflexivity. Qed.

Example transport_failures :
  error (handleSubmit_settled v8 ReadFailed submitting)
    = Some "An error occurred during prediction" /\
  error (handleSubmit_settled v8 (FetchFailed "Failed to fetch") submitting)
    = Some "Failed to fetch" /\
  error (handleSubmit_settled v8 (Responded false (JObj [])) submitting)
    = Some "Prediction failed" /\
  error (handleSubmit_settled v8 (Responded true JNull) submitting)
    = Some "Cannot read properties of null (reading 'success')".
Proof. repeat split. Qed.

(** ** The validator *)

Lemma includes_In (l : list string) (x : string) :
  includes l x = true <-> In x l.
Proof.
  unfold includes. rewrite existsb_exists. split.
  - intros [y [Hy Heq]]. apply String.eqb_eq in Heq. now subst.
  - intros H. exists x. split; [assumption | apply String.eqb_refl].
Qed.

Lemma includes_not_In (l : list string) (x : string) :
  includes l x = false <-> ~ In x l.
Proof.
  rewrite <- includes_In. destruct (includes l x); split; congruence.
Qed.

Lemma maxSize_bytes : maxSize = 16777216%N.
Proof. reflexivity. Qed.

(** C2. The validator applies its two rules in order and stops at the first
    that fails: a declared type outside the six accepted ones is rejected as
    an invalid file type whatever the size; an accepted type with more than
    16 * 1024 * 1024 bytes is rejected as too large; anything else is
    accepted.  [handleImageUpload] stores the reason's message and starts no
    read on a rejection, and starts the preview read on an acceptance. *)
Theorem validator_rules (f : File) (s : State) :
  (~ In (file_type f)
        ["image/jpeg"; "image/png"; "image/jpg"; "image/bmp"; "image/gif"; "image/webp"] ->
   validate f = Rejected InvalidFileType /\
   handleImageUpload (Some f) s =
     (setError (Some "Please upload a valid image file (JPEG, PNG, WebP, GIF)") s, None))
  /\
  (In (file_type f)
      ["image/jpeg"; "image/png"; "image/jpg"; "image/bmp"; "image/gif"; "image/webp"] ->
   (16 * 1024 * 1024 < file_size f)%N ->
   validate f = Rejected FileTooLarge /\
   handleImageUpload (Some f) s =
     (setError (Some "File size too large. Maximum size is 16MB") s, None))
  /\
  (In (file_type f)
      ["image/jpeg"; "image/png"; "image/jpg"; "image/bmp"; "image/gif"; "image/webp"] ->
   (file_size f <= 16 * 1024 * 1024)%N ->
   validate f = Accepted /\ snd (handleImageUpload (Some f) s) = Some f).
Proof.
  fold validTypes. change (16 * 1024 * 1024)%N with maxSize.
  unfold handleImageUpload, validate.
  split; [| split].
  - intros Htype. apply includes_not_In in Htype. rewrite Htype. now split.
  - intros Htype Hsize. apply includes_In in Htype. apply N.ltb_lt in Hsize.
    rewrite Htype, Hsize. now split.
  - intros Htype Hsize. apply includes_In in Htype. apply N.ltb_ge in Hsize.
    rewrite Htype, Hsize. now split.
Qed.

(** The three rules at [notes.txt], the 20 MB JPEG and [fish.png]. *)
Lemma validator_rules_witness :
  validate notes_txt = Rejected InvalidFileType /\
  validate big_jpeg = Rejected FileTooLarge /\
  validate fish_png = Accepted.
Proof.
  split; [| split].
  - apply (proj1 (validator_rules notes_txt initial)).
    simpl. intros H. repeat (destruct H as [H | H]; [discriminate H |]). exact H.
  - apply (proj1 (proj2 (validator_rules big_jpeg initial))).
    + simpl. left. reflexivity.
    + reflexivity.
  - apply (proj2 (proj2 (validator_rules fish_png initial))).
    + simpl. right. left. reflexivity.
    + vm_compute. discriminate.
Defined.

(** ** Selecting a file *)

(** C10. A file that fails validation changes the error message and nothing
    else: the stored image, its preview, the predictions, the summary (and
    the other fields) are as before, no read is started, and a submit starts
    from the image that was stored. *)
Theorem rejected_file_changes_only_error (f : File) (r : Reason) (s : State) :
  validate f = Rejected r ->
  let s' := fst (handleImageUpload (Some f) s) in
  s' = setError (Some (reason_message r)) s /\
  image s' = image s /\ preview s' = preview s /\
  predictions s' = predictions s /\ success s' = success s /\
  loading s' = loading s /\ modelInfo s' = modelInfo s /\
  isDragging s' = isDragging s /\
  snd (handleImageUpload (Some f) s) = None /\
  snd (handleSubmit s') = image s.
Proof.
  intros H. unfold handleImageUpload. rewrite H. simpl.
  repeat split. unfold handleSubmit. simpl. now destruct (image s).
Qed.

(** C5, as the code has it.  A selection that passes validation clears the
    error and the prediction list at once, before the preview is read; one
    that fails replaces the error by the reason and keeps the prediction
    list.  Neither touches the summary. *)
Theorem selection_clears_after_validation (f : File) (s : State) :
  let s' := fst (handleImageUpload (Some f) s) in
  (validate f = Accepted ->
   error s' = None /\ predictions s' = no_predictions /\ success s' = success s /\
   image s' = image s /\ preview s' = preview s)
  /\
  (forall r, validate f = Rejected r ->
   error s' = Some (reason_message r) /\ predictions s' = predictions s /\
   success s' = success s).
Proof.
  unfold handleImageUpload. split.
  - intros H. rewrite H. simpl. repeat split.
  - intros r H. rewrite H. simpl. repeat split.
Qed.

Lemma selection_clears_after_validation_witness :
  (error (fst (handleImageUpload (Some fish_png) (setError (Some "old") initial))) = None) /\
  (error (fst (handleImageUpload (Some notes_txt) initial)) =
   Some "Please upload a valid image file (JPEG, PNG, WebP, GIF)").
Proof.
  split.
  - apply (proj1 (selection_clears_after_validation fish_png
                    (setError (Some "old") initial))).
    reflexivity.
  - apply (proj2 (selection_clears_after_validation notes_txt initial)
                 InvalidFileType).
    reflexivity.
Defined.

Lemma rejected_file_changes_only_error_witness :
  validate big_jpeg = Rejected FileTooLarge /\
  snd (handleSubmit (fst (handleImageUpload (Some big_jpeg) initial))) = None.
Proof.
  split.
  - reflexivity.
  - apply (rejected_file_changes_only_error big_jpeg FileTooLarge initial).
    reflexivity.
Defined.

Lemma reachable_run (rt : Runtime) (evs : list Event) (s : State) :
  reachable rt s -> reachable rt (run rt evs s).
Proof.
  revert s. induction evs as [| ev evs IH]; intros s Hs; simpl.
  - exact Hs.
  - apply IH. now constructor.
Qed.

(** C5 does not hold as stated: after [notes.txt] is dropped on the page in
    the state above, the earlier predictions are still displayed, next to
    the rejection. *)
Lemma selection_keeps_predictions_on_rejection :
  reachable v8 answered_after_reset /\
  displayed answered_after_reset = [salmon; trout] /\
  displayed (fst (handleImageUpload (Some notes_txt) answered_after_reset))
    = [salmon; trout] /\
  error (fst (handleImageUpload (Some notes_txt) answered_after_reset))
    = Some "Please upload a valid image file (JPEG, PNG, WebP, GIF)".
Proof.
  split; [| repeat split].
  apply reachable_run. constructor.
Qed.

(** A second reset changes nothing, and a reset with no request in flight
    gives back the initial state (the model info and the drag flag apart). *)
Lemma handleReset_idempotent (s : State) :
  handleReset (handleReset s) = handleReset s /\
  handleReset s =
    setIsDragging (isDragging s) (setModelInfo (modelInfo s) (setLoading (loading s) initial)).
Proof. split; reflexivity. Qed.

(** ** The service-info query *)

(** C9. Whatever [fetchModelInfo] gets, the image, the preview, the
    predictions, the loading flag, the error and the summary are as before,
    and so is the status; a failure writes one line to the console and
    changes nothing at all. *)
Theorem model_info_leaves_submission (o : InfoOutcome) (s : State) :
  let s' := fst (fetchModelInfo o s) in
  image s' = image s /\ preview s' = preview s /\
  predictions s' = predictions s /\ loading s' = loading s /\
  error s' = error s /\ success s' = success s /\
  status s' = status s /\
  match o with
  | InfoFailed err =>
      s' = s /\ snd (fetchModelInfo o s) = [("Failed to fetch model info:", err)]
  | InfoLoaded data =>
      modelInfo s' = data /\ snd (fetchModelInfo o s) = []
  end.
Proof.
  destruct o; simpl; repeat split.
Qed.

(** ** Interpreting the service's answer *)

(** The error the [catch] stores is never the empty string. *)
Lemma or_default_nonempty (m : option string) (d : string) :
  d <> "" -> or_default m d <> "".
Proof.
  intros Hd. unfold or_default. destruct m as [m |]; [| exact Hd].
  destruct (String.eqb m "") eqn:E; [exact Hd |]. now apply String.eqb_neq.
Qed.

Section Settling.

Variable rt : Runtime.

Lemma settled_normal (o : Outcome) (s s1 : State) :
  submitBody rt o s = (s1, Normal tt) ->
  handleSubmit_settled rt o s = setLoading false s1.
Proof.
  intros H. unfold handleSubmit_settled, finally, try_catch. now rewrite H.
Qed.

Lemma settled_throw (o : Outcome) (s s1 : State) (t : Thrown) :
  submitBody rt o s = (s1, Throw t) ->
  handleSubmit_settled rt o s =
  setLoading false
    (setError (Some (or_default (message_of t) "An error occurred during prediction")) s1).
Proof.
  intros H. unfold handleSubmit_settled, finally, try_catch. now rewrite H.
Qed.

(** [throw new Error(...)] always throws, and sets nothing. *)
Lemma throw_prediction_failed_throws (data : Value) (s : State) :
  exists t, throw_prediction_failed rt data s = (s, Throw t).
Proof.
  unfold throw_prediction_failed, bind, eval, throw.
  destruct (get rt data "error") as [e | t]; [| now exists t].
  destruct (new_Error rt (js_or e (JStr "Prediction failed"))) as [err | t];
    [now exists err | now exists t].
Qed.

(** The body of the [try], case by case. *)
Lemma submitBody_cases (o : Outcome) (s : State) :
  if accepted rt o then
    exists msg,
      match o with Responded _ data => summary rt data = Normal msg | _ => False end /\
      submitBody rt o s =
        (setSuccess (Some msg) (setPredictions (service_predictions o) s), Normal tt)
  else
    exists t,
      submitBody rt o s = (s, Throw t) \/
      submitBody rt o s = (setPredictions (service_predictions o) s, Throw t) /\
      match o with
      | Responded true data => summary rt data = Throw t
      | _ => False
      end.
Proof.
  destruct o as [| m | ok m | ok data]; simpl;
    try (eexists; left; reflexivity).
  destruct ok; simpl.
  2: { destruct (throw_prediction_failed_throws data s) as [t Ht].
       exists t. now left. }
  unfold bind, eval, call.
  destruct data; simpl; try (eexists; left; reflexivity);
    try (destruct (throw_prediction_failed_throws JUndefined s) as [t Ht];
         exists t; left; exact Ht).
  destruct (throw_prediction_failed_throws (JObj fields) s) as [t' Ht].
  destruct (summary rt (JObj fields)) as [msg | t] eqn:Hsum;
    destruct (truthy _) eqn:Htr.
  - exists msg. split; reflexivity.
  - exists t'. left. exact Ht.
  - exists t. right. split; reflexivity.
  - exists t'. left. exact Ht.
Qed.

Lemma settled_accepted (o : Outcome) (s : State) :
  accepted rt o = true ->
  exists msg,
    handleSubmit_settled rt o s =
    setLoading false (setSuccess (Some msg) (setPredictions (service_predictions o) s)).
Proof.
  intros Hacc. pose proof (submitBody_cases o s) as H. rewrite Hacc in H.
  destruct H as [msg [_ H]]. exists msg. now apply settled_normal.
Qed.

Lemma settled_not_accepted (o : Outcome) (s : State) :
  accepted rt o = false ->
  exists t,
    let e := Some (or_default (message_of t) "An error occurred during prediction") in
    handleSubmit_settled rt o s = setLoading false (setError e s) \/
    handleSubmit_settled rt o s =
      setLoading false (setError e (setPredictions (service_predictions o) s)).
Proof.
  intros Hacc. pose proof (submitBody_cases o s) as H. rewrite Hacc in H.
  destruct H as [t [H | [H _]]]; exists t; [left | right]; now apply settled_throw.
Qed.

(** An answer is accepted exactly when the submission ends [Succeeded]
    (starting from a state that shows no error, as every state just after
    [handleSubmit] is), and ends [Failed] otherwise. *)
Lemma settled_status (o : Outcome) (s : State) :
  error s = None ->
  status (handleSubmit_settled rt o s) = if accepted rt o then Succeeded else Failed.
Proof.
  intros He. destruct (accepted rt o) eqn:Hacc.
  - destruct (settled_accepted o s Hacc) as [msg ->].
    unfold status. simpl. now rewrite He.
  - destruct (settled_not_accepted o s Hacc) as [t [-> | ->]]; reflexivity.
Qed.

Lemma settled_frame (o : Outcome) (s : State) :
  image (handleSubmit_settled rt o s) = image s /\
  preview (handleSubmit_settled rt o s) = preview s /\
  modelInfo (handleSubmit_settled rt o s) = modelInfo s /\
  isDragging (handleSubmit_settled rt o s) = isDragging s /\
  loading (handleSubmit_settled rt o s) = false.
Proof.
  destruct (accepted rt o) eqn:Hacc.
  - destruct (settled_accepted o s Hacc) as [msg ->]. repeat split.
  - destruct (settled_not_accepted o s Hacc) as [t [-> | ->]]; repeat split.
Qed.

(** What the failure paths written as such leave alone: a transport
    failure, a status that is not OK, a falsy [data.success] store no
    prediction. *)
Lemma explicit_failure_keeps_predictions (o : Outcome) (s : State) :
  match o with
  | Responded true data =>
      match get rt data "success" with
      | Normal flag => truthy flag = false
      | Throw _ => True
      end
  | _ => True
  end ->
  predictions (handleSubmit_settled rt o s) = predictions s /\
  success (handleSubmit_settled rt o s) = success s /\
  error (handleSubmit_settled rt o s) <> None.
Proof.
  intros H.
  assert (Hbody : exists t, submitBody rt o s = (s, Throw t)).
  { destruct o as [| m | ok m | ok data]; simpl; try (eexists; reflexivity).
    destruct ok; simpl; [| apply throw_prediction_failed_throws].
    unfold bind, eval. destruct (get rt data "success") as [flag | t].
    - rewrite H. apply throw_prediction_failed_throws.
    - now exists t. }
  destruct Hbody as [t Hbody]. rewrite (settled_throw _ _ _ _ Hbody).
  simpl. repeat split. discriminate.
Qed.

(** Any non-empty string in [data.error] is surfaced as it is, when the
    status is not OK or [data.success] is falsy. *)
Lemma application_error_is_surfaced_verbatim
  (ok : bool) (fields : list (string * Value)) (msg : string) (s : State) :
  lookup "error" fields = Some (JStr msg) -> msg <> "" ->
  ok = false \/ lookup "success" fields = None \/
    (exists flag, lookup "success" fields = Some flag /\ truthy flag = false) ->
  handleSubmit_settled rt (Responded ok (JObj fields)) s =
  setLoading false (setError (Some msg) s).
Proof.
  intros Herr Hmsg Hfail.
  assert (Hthrow : throw_prediction_failed rt (JObj fields) s = (s, Throw (ErrorObject msg))).
  { unfold throw_prediction_failed, bind, eval, throw, get. rewrite Herr.
    unfold js_or. simpl. apply String.eqb_neq in Hmsg. now rewrite Hmsg. }
  assert (Hbody : submitBody rt (Responded ok (JObj fields)) s = (s, Throw (ErrorObject msg))).
  { destruct ok; simpl; [| exact Hthrow].
    unfold bind, eval. simpl.
    destruct Hfail as [Hf | [Hf | [flag [Hf Hflag]]]]; [discriminate Hf | |];
      rewrite Hf; [| rewrite Hflag]; exact Hthrow. }
  rewrite (settled_throw _ _ _ _ Hbody). simpl.
  apply String.eqb_neq in Hmsg. now rewrite Hmsg.
Qed.

End Settling.

(** C1, as the code has it.  When an answer is accepted as a success, the
    list handed to the page is [data.predictions] itself, in the order the
    service gave: it is in non-increasing order of confidence exactly when
    the service's list is. *)
Theorem accepted_list_is_the_service_list (rt : Runtime) (o : Outcome) (s : State) :
  accepted rt o = true ->
  let s' := handleSubmit_settled rt o s in
  predictions s' = service_predictions o /\
  displayed s' = items_of (service_predictions o) /\
  descending (displayed s') = descending (items_of (service_predictions o)) /\
  loading s' = false /\ error s' = error s /\ success s' <> None.
Proof.
  intros Hacc. destruct (settled_accepted rt o s Hacc) as [msg H].
  simpl. rewrite H. unfold displayed. simpl. repeat split. discriminate.
Qed.

Lemma accepted_list_is_the_service_list_witness :
  accepted v8 (Responded true unsorted_response) = true /\
  displayed (handleSubmit_settled v8 (Responded true unsorted_response) submitting)
  = [trout; salmon].
Proof.
  split.
  - reflexivity.
  - apply (accepted_list_is_the_service_list v8 (Responded true unsorted_response)
             submitting).
    reflexivity.
Defined.

(** C1 does not hold as stated: the answer above is accepted as a success,
    and Trout (2.655) is displayed before Salmon (97.345). *)
Lemma unsorted_list_is_displayed_unsorted :
  status (handleSubmit_settled v8 (Responded true unsorted_response) submitting)
    = Succeeded /\
  displayed (handleSubmit_settled v8 (Responded true unsorted_response) submitting)
    = [trout; salmon] /\
  descending
    (displayed (handleSubmit_settled v8 (Responded true unsorted_response) submitting))
    = false.
Proof. repeat split. Qed.

(** ** Failures *)

(** C7. The answer [{success: false, error: "too blurry"}], with an OK
    status or not, ends the submission [Failed] with the error message
    ["too blurry"], exactly; predictions and summary are as they were. *)
Theorem too_blurry_is_surfaced_verbatim (rt : Runtime) (ok : bool) (s : State) :
  let s' := handleSubmit_settled rt (Responded ok too_blurry) s in
  status s' = Failed /\ error s' = Some "too blurry" /\ loading s' = false /\
  predictions s' = predictions s /\ success s' = success s.
Proof.
  destruct ok; repeat split.
Qed.

(** C3, as the code has it.  The answer [{success: true, predictions: []}],
    which has no [top_prediction], ends the submission [Failed] and not
    [Succeeded]: with an OK status the summary cannot be built, the read of
    [top_prediction.species] throws and the engine's message (or the generic
    one, should that be empty) becomes the error; with another status the
    error is ["Prediction failed"].  No summary is stored. *)
Theorem empty_list_without_top_prediction_fails (rt : Runtime) (ok : bool) (s : State) :
  let s' := handleSubmit_settled rt (Responded ok empty_list_response) s in
  status s' = Failed /\ status s' <> Succeeded /\
  success s' = success s /\ loading s' = false /\
  error s' =
    Some (if ok
          then or_default (Some (cannot_read rt JUndefined "species"))
                          "An error occurred during prediction"
          else "Prediction failed").
Proof.
  destruct ok; simpl; repeat split; unfold status; simpl; discriminate.
Qed.

(** C3 does not hold of every empty list: with a [top_prediction] beside it,
    the empty list is stored as a success with no result. *)
Lemma empty_list_with_top_prediction_succeeds :
  status (handleSubmit_settled v8 (Responded true empty_list_response_with_top) submitting)
    = Succeeded /\
  displayed (handleSubmit_settled v8 (Responded true empty_list_response_with_top) submitting)
    = [] /\
  error (handleSubmit_settled v8 (Responded true empty_list_response_with_top) submitting)
    = None.
Proof. repeat split. Qed.

(** C4 at the scenario's answer as the spec writes it (no [top_prediction]):
    [setPredictions] has run when the summary throws, so the submission ends
    [Failed] with the two predictions of the answer stored and displayed
    beside the error. *)
Theorem failed_submission_keeps_predictions :
  let s' := handleSubmit_settled v8 (Responded true scenario_response) submitting in
  status s' = Failed /\
  error s' = Some "Cannot read properties of undefined (reading 'species')" /\
  predictions submitting = JArr [] /\
  displayed s' = [salmon; trout].
Proof. repeat split. Qed.

(** ** The preview *)

Lemma preview_iff_image (rt : Runtime) (s : State) :
  reachable rt s -> is_some (preview s) = is_some (image s).
Proof.
  induction 1 as [| s ev _ IH]; [reflexivity |].
  destruct ev as [file | file result | | o | | o | |]; simpl.
  - unfold handleImageUpload. destruct file as [f |]; [| exact IH].
    destruct (validate f); exact IH.
  - reflexivity.
  - unfold handleSubmit. destruct (image s) eqn:E; simpl; rewrite E; exact IH.
  - destruct (settled_frame rt o s) as [-> [-> _]]. exact IH.
  - reflexivity.
  - destruct o; exact IH.
  - exact IH.
  - exact IH.
Qed.

(** C6, as the code has it.  In every reachable state the preview is there
    exactly when an image is stored; a preview implies that the status is
    one of Ready, Submitting, Succeeded, Failed; Ready implies a preview and
    Empty implies none; and after a reset there is neither preview nor
    image (and the status is Empty unless a request is in flight). *)
Theorem preview_invariant (rt : Runtime) (s : State) :
  reachable rt s ->
  is_some (preview s) = is_some (image s) /\
  (preview s <> None ->
   status s = Ready \/ status s = Submitting \/ status s = Succeeded \/ status s = Failed) /\
  (status s = Ready -> preview s <> None) /\
  (status s = Empty -> preview s = None) /\
  preview (handleReset s) = None /\ image (handleReset s) = None /\
  (loading s = false -> status (handleReset s) = Empty).
Proof.
  intros Hr. pose proof (preview_iff_image rt s Hr) as Hpi.
  split; [exact Hpi |].
  assert (Hreset : loading s = false -> status (handleReset s) = Empty).
  { intros Hl. unfold status. simpl. now rewrite Hl. }
  repeat (split; [| try exact Hreset; try reflexivity]); unfold status;
    destruct (preview s) as [p |], (image s) as [i |]; try discriminate Hpi;
    destruct (loading s), (error s), (success s); simpl;
    intros; auto; try discriminate; try congruence.
Qed.

Lemma preview_invariant_witness :
  reachable v8 submitting /\ status submitting = Submitting /\ preview submitting <> None.
Proof.
  assert (Hr : reachable v8 submitting) by (apply reachable_run; constructor).
  split; [exact Hr |]. split; [reflexivity |].
  pose proof (preview_invariant v8 submitting Hr) as [H _].
  intros Hp. rewrite Hp in H. discriminate H.
Defined.

(** C6 does not hold as stated: a text file dropped on the fresh page gives
    a state that is [Failed] and has no preview; and a submission reset
    while in flight ends [Succeeded] with no preview. *)
Lemma failed_without_preview :
  reachable v8 (fst (handleImageUpload (Some notes_txt) initial)) /\
  status (fst (handleImageUpload (Some notes_txt) initial)) = Failed /\
  preview (fst (handleImageUpload (Some notes_txt) initial)) = None /\
  reachable v8 answered_after_reset /\
  status answered_after_reset = Succeeded /\
  preview answered_after_reset = None.
Proof.
  split; [| split; [reflexivity | split; [reflexivity | split; [| split; reflexivity]]]].
  - apply (reachable_step v8 initial (FileSelected (Some notes_txt))). constructor.
  - apply reachable_run. constructor.
Qed.

(** ** The summary *)

Lemma is_digit_digit (k : Z) : 0 <= k <= 9 -> is_digit (digit k) = true.
Proof.
  intros H.
  assert (Hk : k = 0 \/ k = 1 \/ k = 2 \/ k = 3 \/ k = 4 \/
               k = 5 \/ k = 6 \/ k = 7 \/ k = 8 \/ k = 9) by lia.
  repeat (destruct Hk as [-> | Hk]; [reflexivity |]). now subst.
Qed.

Lemma digit_value_digit (k : Z) : 0 <= k <= 9 -> digit_value (digit k) = k.
Proof.
  intros H.
  assert (Hk : k = 0 \/ k = 1 \/ k = 2 \/ k = 3 \/ k = 4 \/
               k = 5 \/ k = 6 \/ k = 7 \/ k = 8 \/ k = 9) by lia.
  repeat (destruct Hk as [-> | Hk]; [reflexivity |]). now subst.
Qed.

Lemma all_digits_string_of_uint (d : Decimal.uint) :
  all_digits (NilEmpty.string_of_uint d) = true.
Proof.
  induction d; simpl; try rewrite IHd; reflexivity.
Qed.

Lemma all_digits_digits (k : Z) : all_digits (digits k) = true.
Proof.
  unfold digits, NilZero.string_of_uint.
  destruct (N.to_uint (Z.to_N k)); try reflexivity;
    apply (all_digits_string_of_uint (_ _)).
Qed.

Lemma split_point_digits (whole rest : string) :
  all_digits whole = true ->
  split_point (whole ++ String "." rest) = Some (whole, rest).
Proof.
  induction whole as [| c whole IH]; simpl; intros H; [reflexivity |].
  apply andb_true_iff in H as [Hc Hw]. rewrite (IH Hw).
  destruct (Ascii.eqb c "."%char) eqn:E; [| reflexivity].
  apply Ascii.eqb_eq in E. subst c. discriminate Hc.
Qed.

Lemma uint_of_string_digits (k : Z) :
  NilZero.uint_of_string (digits k) = Some (N.to_uint (Z.to_N k)).
Proof.
  unfold digits. apply NilZero.usu. 
  destruct (Z.to_N k) as [| p]; [discriminate |].
  apply DecimalPos.Unsigned.to_uint_nonnil.
Qed.

(** The text [fixed2] writes reads back as the number of hundredths. *)
Lemma read_fixed2_fixed2 (n : Z) : 0 <= n -> read_fixed2 (fixed2 n) = Some n.
Proof.
  intros Hn. unfold read_fixed2, fixed2.
  change ("." ++ ?x) with (String "." x).
  rewrite split_point_digits by apply all_digits_digits.
  rewrite uint_of_string_digits, all_digits_digits.
  assert (H1 : 0 <= n mod 100 / 10 <= 9) by (Z.div_mod_to_equations; lia).
  assert (H2 : 0 <= n mod 10 <= 9) by (Z.div_mod_to_equations; lia).
  rewrite !is_digit_digit, !digit_value_digit by assumption. cbn [andb].
  rewrite DecimalN.Unsigned.of_to, Z2N.id by (Z.div_mod_to_equations; lia).
  f_equal. Z.div_mod_to_equations. lia.
Qed.

(** [hundredths] is within half a hundredth of the value. *)
Lemma hundredths_nearest (m e : Z) :
  0 <= m ->
  (Qabs (inject_Z (hundredths m e) - 100 * value_of m e) <= 1 # 2)%Q.
Proof.
  intros Hm. unfold hundredths, value_of. rewrite (Z.abs_eq m Hm).
  destruct (0 <=? e) eqn:He.
  - setoid_replace (inject_Z (100 * m * 2 ^ e) - 100 * inject_Z (m * 2 ^ e))%Q
      with 0%Q; [discriminate |].
    unfold Qeq, Qminus, Qplus, Qmult, Qopp, inject_Z. cbn [Qnum Qden]. lia.
  - apply Z.leb_gt in He.
    assert (Hd : 0 < 2 ^ (- e)) by (apply Z.pow_pos_nonneg; lia).
    set (d := 2 ^ (- e)) in *.
    apply Qabs_Qle_condition.
    unfold Qle, Qminus, Qplus, Qmult, Qopp, inject_Z. cbn [Qnum Qden].
    rewrite !Pos2Z.inj_mul, !Z2Pos.id by assumption.
    split; Z.div_mod_to_equations; nia.
Qed.

Lemma hundredths_nonneg (m e : Z) : 0 <= hundredths m e.
Proof.
  unfold hundredths. destruct (0 <=? e) eqn:He.
  - apply Z.leb_le in He. pose proof (Z.pow_nonneg 2 e). nia.
  - apply Z.leb_gt in He.
    assert (0 < 2 ^ (- e)) by (apply Z.pow_pos_nonneg; lia).
    apply Z.div_pos; lia.
Qed.

(** C8, as the code has it.  On an answer with an OK status, a truthy
    [success] and a [top_prediction] holding a string [species] and a
    [confidence] from 0 up to (not including) 10^21, the stored summary is
    ["Identified as <species> with <confidence>% confidence"], where
    <confidence> is the text [toFixed(2)] gives: it reads back as the number
    of hundredths nearest to the confidence (the double itself, not the
    decimal literal it was parsed from), with two digits after the point. *)
Theorem summary_of_well_formed_response
  (rt : Runtime) (fields top : list (string * Value)) (flag : Value)
  (species : string) (m e : Z) (s : State) :
  lookup "success" fields = Some flag -> truthy flag = true ->
  lookup "top_prediction" fields = Some (JObj top) ->
  lookup "species" top = Some (JStr species) ->
  lookup "confidence" top = Some (JNum (Fin m e)) ->
  0 <= m -> at_least_1e21 m e = false ->
  let s' := handleSubmit_settled rt (Responded true (JObj fields)) s in
  let n := hundredths m e in
  success s' =
    Some ("Identified as " ++ species ++ " with " ++ fixed2 n ++ "% confidence") /\
  read_fixed2 (fixed2 n) = Some n /\
  (Qabs (inject_Z n - 100 * value_of m e) <= 1 # 2)%Q /\
  loading s' = false /\ error s' = error s.
Proof.
  intros Hflag Htruthy Htop Hsp Hconf Hm Hbig s' n.
  assert (Hsum : summary rt (JObj fields) =
                 Normal ("Identified as " ++ species ++ " with " ++ fixed2 n ++ "% confidence")).
  { unfold summary, get, cbind. rewrite Htop, Hsp. cbn [to_string]. rewrite Hconf.
    unfold call_toFixed2, toFixed2. rewrite Hbig.
    replace (m <? 0) with false by (symmetry; apply Z.ltb_ge; exact Hm).
    reflexivity. }
  assert (Hacc : accepted rt (Responded true (JObj fields)) = true).
  { unfold accepted. rewrite Hsum. unfold get. now rewrite Hflag. }
  pose proof (submitBody_cases rt (Responded true (JObj fields)) s) as H.
  rewrite Hacc in H. destruct H as [msg [Hmsg Hbody]].
  rewrite Hsum in Hmsg. injection Hmsg as <-.
  subst s'. rewrite (settled_normal _ _ _ _ Hbody).
  split; [reflexivity |]. split; [apply read_fixed2_fixed2, hundredths_nonneg |].
  split; [apply hundredths_nearest, Hm |]. split; reflexivity.
Qed.

(** The double the literal [97.345] denotes lies below 97.345. *)
Lemma literal_97_345 :
  literal 97345 (-3) = Fin 6850045401974702 (-46) /\
  (value_of 6850045401974702 (-46) < 97345 # 1000)%Q.
Proof. split; reflexivity. Qed.

(** The scenario's answer, with its [top_prediction]: 97.34. *)
Lemma summary_of_well_formed_response_witness :
  success (handleSubmit_settled v8 (Responded true scenario_response_with_top) submitting)
  = Some "Identified as Salmon with 97.34% confidence".
Proof.
  apply (summary_of_well_formed_response v8
           [("success", JBool true); ("predictions", JArr [salmon; trout]);
            ("top_prediction",
             JObj [("species", JStr "Salmon");
                   ("confidence", JNum (literal 97345 (-3)))])]
           [("species", JStr "Salmon"); ("confidence", JNum (literal 97345 (-3)))]
           (JBool true) "Salmon" 6850045401974702 (-46) submitting);
    try reflexivity.
  vm_compute. discriminate.
Defined.

(** C8 does not hold at the scenario: with its [top_prediction] the answer
    gives 97.34 and not 97.35; as the spec writes it, without one, it gives
    no summary at all. *)
Lemma scenario_summary_is_not_97_35 :
  success (handleSubmit_settled v8 (Responded true scenario_response_with_top) submitting)
    = Some "Identified as Salmon with 97.34% confidence" /\
  success (handleSubmit_settled v8 (Responded true scenario_response) submitting)
    = None /\
  toFixed2 v8 (literal 97345 (-3)) = "97.34".
Proof. repeat split. Qed.

(** * Further properties *)

(** ** Drops *)

(** X1. A drop looks at its first file only, whatever else was dropped, and
    reads nothing else; it ends the drag highlight even when that file is
    rejected or when nothing was dropped; the file picker likewise takes the
    first file only. *)
Theorem drop_takes_first_file (file : File) (others : list File) (s : State) :
  handleDrop (file :: others) s = handleDrop [file] s /\
  handleFileInput (file :: others) s = handleFileInput [file] s /\
  isDragging (fst (handleDrop (file :: others) s)) = false /\
  isDragging (fst (handleDrop [] s)) = false /\
  snd (handleDrop (file :: others) s) =
    (match validate file with Accepted => Some file | Rejected _ => None end) /\
  error (fst (handleDrop (file :: others) s)) =
    (match validate file with Accepted => None | Rejected r => Some (reason_message r) end).
Proof.
  unfold handleDrop, handleFileInput, handleImageUpload.
  destruct (validate file); repeat split.
Qed.

(** ** How a submission ends *)

Lemma summary_starts (rt : Runtime) (data : Value) (msg : string) :
  summary rt data = Normal msg -> exists rest, msg = "Identified as " ++ rest.
Proof.
  unfold summary, cbind. intros H.
  repeat match type of H with
         | match ?c with Normal _ => _ | Throw _ => _ end = _ =>
             destruct c; [| discriminate H]
         end.
  injection H as <-. eexists. reflexivity.
Qed.

(** X2. However the request ends, [loading] is off afterwards and exactly
    one message was written: an accepted answer stores a summary that begins
    with ["Identified as "] and leaves the error alone; anything else stores
    an error that is not the empty text and leaves the summary alone. *)
Theorem submission_ends_with_one_message (rt : Runtime) (o : Outcome) (s : State) :
  let s' := handleSubmit_settled rt o s in
  loading s' = false /\ image s' = image s /\ preview s' = preview s /\
  if accepted rt o
  then (exists rest, success s' = Some ("Identified as " ++ rest)) /\ error s' = error s
  else (exists m, error s' = Some m /\ m <> "") /\ success s' = success s.
Proof.
  destruct (settled_frame rt o s) as [Hi [Hp [_ [_ Hl]]]].
  simpl. repeat (split; [assumption |]).
  pose proof (submitBody_cases rt o s) as H.
  destruct (accepted rt o).
  - destruct H as [msg [Hsum Hbody]]. rewrite (settled_normal _ _ _ _ Hbody).
    split; [| reflexivity].
    destruct o as [| | | ok data]; try contradiction.
    destruct (summary_starts rt data msg Hsum) as [rest ->]. now exists rest.
  - destruct H as [t [Hbody | [Hbody _]]]; rewrite (settled_throw _ _ _ _ _ Hbody);
      (split; [| reflexivity]); eexists; (split; [reflexivity |]);
      apply or_default_nonempty; discriminate.
Qed.

(** X3. [handleSubmit] clears the summary and the error but not the
    predictions: when a stored image is submitted again and the request
    fails explicitly, the predictions of the earlier answer are still stored
    beside the new error, and the status is Failed. *)
Theorem failed_resubmission_keeps_old_predictions
  (rt : Runtime) (o : Outcome) (img : File) (s : State) :
  image s = Some img -> explicit_failure rt o = true ->
  let s1 := fst (handleSubmit s) in
  let s2 := handleSubmit_settled rt o s1 in
  snd (handleSubmit s) = Some img /\
  loading s1 = true /\ predictions s1 = predictions s /\
  predictions s2 = predictions s /\ success s2 = None /\
  error s2 <> None /\ status s2 = Failed.
Proof.
  intros Himg Hfail. unfold handleSubmit. rewrite Himg. simpl.
  assert (H : match o with
              | Responded true data =>
                  match get rt data "success" with
                  | Normal flag => truthy flag = false
                  | Throw _ => True
                  end
              | _ => True
              end).
  { destruct o as [| | | ok data]; try exact I. destruct ok; [| exact I].
    simpl in Hfail. destruct (get rt data "success"); [| exact I].
    now apply negb_true_iff. }
  destruct (explicit_failure_keeps_predictions rt o
              (setSuccess None (setError None (setLoading true s))) H)
    as [Hp [Hs He]].
  destruct (settled_frame rt o (setSuccess None (setError None (setLoading true s))))
    as [_ [_ [_ [_ Hl]]]].
  repeat split; try assumption.
  unfold status. rewrite Hl.
  destruct (error (handleSubmit_settled rt o _)); [reflexivity | contradiction].
Qed.

Lemma failed_resubmission_keeps_old_predictions_witness :
  displayed
    (handleSubmit_settled v8 (FetchFailed "Failed to fetch")
       (fst (handleSubmit
               (handleSubmit_settled v8 (Responded true scenario_response_with_top)
                  submitting))))
  = [salmon; trout].
Proof.
  unfold displayed.
  rewrite (proj1 (proj2 (proj2 (proj2
             (failed_resubmission_keeps_old_predictions v8 (FetchFailed "Failed to fetch")
                fish_png
                (handleSubmit_settled v8 (Responded true scenario_response_with_top)
                   submitting)
                eq_refl eq_refl))))).
  reflexivity.
Defined.

(** ** Late answers *)

Ltac split_completions :=
  repeat match goal with
         | |- context [match ?c with Normal _ => _ | Throw _ => _ end] => destruct c
         | |- context [if ?b then _ else _] => destruct b
         end.

Lemma submitBody_ignores_image
  (rt : Runtime) (o : Outcome) (i : option File) (p : option string) (s : State) :
  submitBody rt o (setPreview p (setImage i s)) =
  (setPreview p (setImage i (fst (submitBody rt o s))), snd (submitBody rt o s)).
Proof.
  destruct o as [| m | ok m | ok data]; try reflexivity.
  unfold submitBody, throw_prediction_failed, bind, eval, call, throw.
  split_completions; reflexivity.
Qed.

(** X4. The continuation of [handleSubmit] never looks at the image or the
    preview that are current when the answer arrives: it does to a state
    with another image and preview exactly what it would have done to the
    old one.  So an answer that arrives after a reset, or after another file
    was loaded, is applied all the same. *)
Theorem late_answer_is_applied_all_the_same
  (rt : Runtime) (o : Outcome) (i : option File) (p : option string) (s : State) :
  handleSubmit_settled rt o (setPreview p (setImage i s)) =
    setPreview p (setImage i (handleSubmit_settled rt o s)) /\
  (forall file result,
     handleSubmit_settled rt o (previewLoaded file result s) =
     previewLoaded file result (handleSubmit_settled rt o s)) /\
  (accepted rt o = true ->
   let s' := handleSubmit_settled rt o (handleReset s) in
   preview s' = None /\ image s' = None /\
   predictions s' = service_predictions o /\ status s' = Succeeded).
Proof.
  assert (Hc : forall i p s,
             handleSubmit_settled rt o (setPreview p (setImage i s)) =
             setPreview p (setImage i (handleSubmit_settled rt o s))).
  { intros i0 p0 s0. unfold handleSubmit_settled, finally, try_catch.
    rewrite submitBody_ignores_image.
    destruct (submitBody rt o s0) as [s1 [[] | t]]; reflexivity. }
  split; [apply Hc |]. split.
  - intros file result. unfold previewLoaded.
    change (setImage (Some file) (setPreview (Some result) s))
      with (setPreview (Some result) (setImage (Some file) s)).
    rewrite Hc. reflexivity.
  - intros Hacc.
    destruct (settled_accepted rt o (handleReset s) Hacc) as [msg H].
    simpl. rewrite H. repeat split.
Qed.

Lemma late_answer_is_applied_all_the_same_witness :
  status (handleSubmit_settled v8 (Responded true scenario_response_with_top)
            (handleReset submitting)) = Succeeded.
Proof.
  apply (late_answer_is_applied_all_the_same v8
           (Responded true scenario_response_with_top) None None submitting).
  reflexivity.
Defined.

(** ** Messages on display *)

Lemma reason_message_nonempty (r : Reason) : reason_message r <> "".
Proof. destruct r; discriminate. Qed.

Lemma settled_messages_nonempty (rt : Runtime) (o : Outcome) (s : State) :
  error s <> Some "" -> success s <> Some "" ->
  error (handleSubmit_settled rt o s) <> Some "" /\
  success (handleSubmit_settled rt o s) <> Some "".
Proof.
  intros He Hs. pose proof (submitBody_cases rt o s) as H.
  destruct (accepted rt o).
  - destruct H as [msg [Hsum Hbody]]. rewrite (settled_normal _ _ _ _ Hbody). simpl.
    split; [exact He |].
    destruct o as [| | | ok data]; try contradiction.
    destruct (summary_starts rt data msg Hsum) as [rest ->]. discriminate.
  - destruct H as [t [Hbody | [Hbody _]]]; rewrite (settled_throw _ _ _ _ _ Hbody);
      simpl; (split; [| exact Hs]); intros E;
      (apply (or_default_nonempty (message_of t) "An error occurred during prediction");
       [discriminate | congruence]).
Qed.

(** X5. In every reachable state a stored error, and a stored summary, is
    not the empty text: the alerts of the page, which test [error] and
    [success] for truthiness, show exactly when a message is stored. *)
Theorem stored_messages_are_shown (rt : Runtime) (s : State) :
  reachable rt s ->
  shown (error s) = is_some (error s) /\ shown (success s) = is_some (success s).
Proof.
  intros Hr.
  assert (H : error s <> Some "" /\ success s <> Some "").
  { induction Hr as [| s ev _ [IHe IHs]]; [split; discriminate |].
    destruct ev as [file | file result | | o | | o | |]; simpl; try (split; assumption).
    - unfold handleImageUpload. destruct file as [f |]; [| split; assumption].
      destruct (validate f) as [| r]; simpl; (split; [| assumption]); [discriminate |].
      intros E. apply (reason_message_nonempty r). congruence.
    - unfold handleSubmit. destruct (image s); simpl; split;
        try discriminate; assumption.
    - now apply settled_messages_nonempty.
    - split; discriminate.
    - destruct o; split; assumption. }
  destruct H as [He Hs]. unfold shown.
  destruct (error s) as [e |], (success s) as [m |]; simpl; split; try reflexivity;
    apply negb_true_iff, String.eqb_neq; congruence.
Qed.

Lemma stored_messages_are_shown_witness :
  shown (error (handleSubmit_settled v8 (Responded true too_blurry) submitting)) = true.
Proof.
  apply (stored_messages_are_shown v8
           (handleSubmit_settled v8 (Responded true too_blurry) submitting)).
  apply (reachable_step v8 submitting (SubmitSettled (Responded true too_blurry))).
  apply reachable_run. constructor.
Defined.

(** ** The results card *)

Lemma confidence_of_read (rt : Runtime) (pred : Value) (c : number) :
  confidence_of pred = Some c ->
  exists fields,
    pred = JObj fields /\ lookup "confidence" fields = Some (JNum c) /\
    get rt pred "confidence" = Normal (JNum c) /\
    get rt pred "species" = Normal (field "species" pred) /\
    get rt pred "class_id" = Normal (field "class_id" pred).
Proof.
  destruct pred as [| | | | | | fields]; try discriminate. simpl.
  destruct (lookup "confidence" fields) as [[| | | x | | |] |] eqn:E; try discriminate.
  intros H. injection H as <-. exists fields. now rewrite E.
Qed.

Lemma confidence_read_back (rt : Runtime) (pred : Value) (x : number) :
  get rt pred "confidence" = Normal (JNum x) -> confidence_of pred = Some x.
Proof.
  destruct pred as [| | | | | | fields]; try discriminate. simpl.
  destruct (lookup "confidence" fields) as [v |]; [| discriminate].
  intros H. injection H as ->. reflexivity.
Qed.

Lemma row_of_number (rt : Runtime) (pred : Value) (index : Z) (c : number) :
  confidence_of pred = Some c ->
  row rt pred index =
  Normal {| row_key := field "class_id" pred; row_rank := index + 2;
            row_species := field "species" pred;
            row_width := number_to_string rt c ++ "%";
            row_confidence := toFixed2 rt c |}.
Proof.
  intros H. destruct (confidence_of_read rt pred c H) as [fields [_ [_ [Hc [Hs Hk]]]]].
  unfold row. rewrite Hk, Hs, Hc. reflexivity.
Qed.

Lemma row_needs_number (rt : Runtime) (pred : Value) (index : Z) (r : Row) :
  row rt pred index = Normal r -> exists c, confidence_of pred = Some c.
Proof.
  unfold row, cbind. intros H.
  destruct (get rt pred "class_id"); [| discriminate H].
  destruct (get rt pred "species"); [| discriminate H].
  destruct (get rt pred "confidence") as [v |] eqn:Hv; [| discriminate H].
  destruct (to_string rt v); [| discriminate H].
  destruct v; try discriminate H.
  exists x. now apply (confidence_read_back rt).
Qed.

Lemma topMatch_of_number (rt : Runtime) (pred : Value) (c : number) :
  confidence_of pred = Some c ->
  topMatch rt pred =
  Normal {| top_species := field "species" pred; top_confidence := toFixed2 rt c;
            top_width := number_to_string rt c ++ "%" |}.
Proof.
  intros H. destruct (confidence_of_read rt pred c H) as [fields [_ [_ [Hc [Hs _]]]]].
  unfold topMatch. rewrite Hs, Hc. reflexivity.
Qed.

Lemma topMatch_needs_number (rt : Runtime) (pred : Value) (t : TopMatch) :
  topMatch rt pred = Normal t -> exists c, confidence_of pred = Some c.
Proof.
  unfold topMatch, cbind. intros H.
  destruct (get rt pred "species"); [| discriminate H].
  destruct (get rt pred "confidence") as [v |] eqn:Hv; [| discriminate H].
  destruct v; try discriminate H.
  exists x. now apply (confidence_read_back rt).
Qed.




Lemma rows_in_order (rt : Runtime) (preds : list Value) (index : Z) (rows : list Row) :
  sequence (map_from rt index preds) = Normal rows ->
  map row_rank rows = map (fun k => index + Z.of_nat k + 2) (seq 0 (List.length preds)) /\
  map row_species rows = map (field "species") preds /\
  map row_key rows = map (field "class_id") preds /\
  map (fun r => Some (row_confidence r)) rows = map (confidence_text rt) preds.
Proof.
  revert index rows. induction preds as [| pred rest IH]; intros index rows H.
  - injection H as <-. repeat split.
  - simpl in H. unfold cbind in H.
    destruct (row rt pred index) as [r |] eqn:Hr; [| discriminate H].
    destruct (sequence (map_from rt (index + 1) rest)) as [rs |] eqn:Hrs;
      [| discriminate H].
    injection H as <-.
    destruct (row_needs_number rt pred index r Hr) as [c Hc].
    rewrite (row_of_number rt pred index c Hc) in Hr. injection Hr as <-.
    destruct (IH (index + 1) rs Hrs) as [Hrank [Hsp [Hkey Htext]]].
    simpl. rewrite Hrank, Hsp, Hkey, Htext. unfold confidence_text at 2. rewrite Hc.
    repeat split. f_equal; [lia |].
    rewrite <- seq_shift, map_map. apply map_ext. intros k. lia.
Qed.

(** X7. When the card renders, it shows the stored list in the stored order:
    the top match is the first prediction, and the rows below are the
    others, one each, numbered 2, 3, ... with their own class id, species
    and confidence (written by [toFixed(2)]).  Nothing is sorted, dropped or
    repeated. *)
Theorem card_lists_predictions_in_order
  (rt : Runtime) (first : Value) (rest : list Value) (card : Card) :
  resultsCard rt (first :: rest) false = Normal card ->
  exists top rows,
    card = Results top rows /\
    top_species top = field "species" first /\
    Some (top_confidence top) = confidence_text rt first /\
    List.length rows = List.length rest /\
    map row_rank rows = map (fun k => Z.of_nat k + 2) (seq 0 (List.length rest)) /\
    map row_species rows = map (field "species") rest /\
    map row_key rows = map (field "class_id") rest /\
    map (fun r => Some (row_confidence r)) rows = map (confidence_text rt) rest.
Proof.
  simpl. unfold cbind. intros H.
  destruct (topMatch rt first) as [t |] eqn:Ht; [| discriminate H].
  destruct (sequence (map_from rt 0 rest)) as [rows |] eqn:Hrows; [| discriminate H].
  injection H as <-. exists t, rows.
  destruct (topMatch_needs_number rt first t Ht) as [c Hc].
  rewrite (topMatch_of_number rt first c Hc) in Ht. injection Ht as <-.
  destruct (rows_in_order rt rest 0 rows Hrows) as [Hrank [Hsp [Hkey Htext]]].
  unfold confidence_text at 1. rewrite Hc. simpl.
  repeat split; try assumption.
  rewrite <- (List.length_map row_species rows), Hsp. apply List.length_map.
Qed.

Lemma card_lists_predictions_in_order_witness :
  exists top rows,
    Results {| top_species := JStr "Salmon"; top_confidence := "97.34";
               top_width := "97.345%" |}
            [{| row_key := JNum (literal 2 0); row_rank := 2; row_species := JStr "Trout";
                row_width := "2.655%"; row_confidence := "2.65" |}]
    = Results top rows /\
    top_species top = field "species" salmon /\
    Some (top_confidence top) = confidence_text v8 salmon /\
    List.length rows = List.length [trout] /\
    map row_rank rows = map (fun k => Z.of_nat k + 2) (seq 0 (List.length [trout])) /\
    map row_species rows = map (field "species") [trout] /\
    map row_key rows = map (field "class_id") [trout] /\
    map (fun r => Some (row_confidence r)) rows = map (confidence_text v8) [trout].
Proof.
  apply (card_lists_predictions_in_order v8 salmon [trout]).
  reflexivity.
Defined.

(** ** The page and its pending operations *)

Lemma ui_reachable_run (rt : Runtime) (actions : list Action) (w w' : World) :
  ui_reachable rt w -> run_actions rt actions w = Some w' -> ui_reachable rt w'.
Proof.
  revert w. induction actions as [| a rest IH]; simpl; intros w Hw H.
  - injection H as <-. exact Hw.
  - destruct (act rt a w) as [w1 |] eqn:Ha; [| discriminate H].
    apply (IH w1); [| exact H]. now apply (ui_reachable_act rt w a).
Qed.

Lemma ready_world_reachable : ui_reachable v8 ready_world.
Proof.
  apply (ui_reachable_run v8
           [Drop [fish_png]; ReadDone 0 "data:image/png;base64,iVBORw0KGgo="] mounted).
  - constructor.
  - reflexivity.
Qed.

(** The page's worlds are states of the free event model: what was proved
    of [reachable] holds of them. *)
Lemma ui_reachable_is_reachable (rt : Runtime) (w : World) :
  ui_reachable rt w -> reachable rt (ui w).
Proof.
  induction 1 as [| w a w' _ IH Hact]; [constructor |].
  destruct a as [files | files | | | i result | i | | i o | | o]; simpl in Hact.
  - destruct (dropZoneRendered (ui w)); [| discriminate Hact].
    destruct (handleDrop files (ui w)) as [s' file] eqn:Hd. injection Hact as <-. simpl.
    replace s' with (handle rt (FileSelected (hd_error files)) (handle rt DragLeave (ui w)))
      by (unfold handleDrop in Hd; destruct files;
          unfold handle, handleDragLeave; cbn [hd_error];
          [now injection Hd as <- | now rewrite Hd]).
    now repeat constructor.
  - destruct (triggerFileInput (ui w)); [| discriminate Hact].
    destruct (handleFileInput files (ui w)) as [s' file] eqn:Hd. injection Hact as <-. simpl.
    replace s' with (handle rt (FileSelected (hd_error files)) (ui w))
      by (unfold handleFileInput in Hd; destruct files;
          unfold handle; cbn [hd_error];
          [now injection Hd as <- | now rewrite Hd]).
    now constructor.
  - destruct (dropZoneRendered (ui w)); [| discriminate Hact]. injection Hact as <-.
    apply (reachable_step rt (ui w) DragOver IH).
  - destruct (dropZoneRendered (ui w)); [| discriminate Hact]. injection Hact as <-.
    apply (reachable_step rt (ui w) DragLeave IH).
  - destruct (nth_error (readers w) i) as [file |]; [| discriminate Hact].
    destruct (String.prefix "data:" result); [| discriminate Hact]. injection Hact as <-.
    apply (reachable_step rt (ui w) (PreviewLoaded file result) IH).
  - destruct (nth_error (readers w) i); [| discriminate Hact]. injection Hact as <-.
    exact IH.
  - destruct (submitEnabled (ui w)); [| discriminate Hact].
    destruct (handleSubmit (ui w)) as [s' img] eqn:Hs. injection Hact as <-. simpl.
    replace s' with (handle rt SubmitClicked (ui w)) by (simpl; now rewrite Hs).
    now constructor.
  - destruct (nth_error (requests w) i); [| discriminate Hact]. injection Hact as <-.
    apply (reachable_step rt (ui w) (SubmitSettled o) IH).
  - destruct (previewRendered (ui w)); [| discriminate Hact]. injection Hact as <-.
    apply (reachable_step rt (ui w) ResetClicked IH).
  - destruct (infoPending w); [| discriminate Hact]. injection Hact as <-.
    apply (reachable_step rt (ui w) (ModelInfoSettled o) IH).
Qed.

Lemma handleImageUpload_frame (file : option File) (s : State) :
  image (fst (handleImageUpload file s)) = image s /\
  preview (fst (handleImageUpload file s)) = preview s /\
  loading (fst (handleImageUpload file s)) = loading s /\
  Forall validated (started (snd (handleImageUpload file s))).
Proof.
  unfold handleImageUpload. destruct file as [f |]; [| repeat split; constructor].
  destruct (validate f) eqn:E; repeat split; simpl; repeat constructor. exact E.
Qed.

Lemma Forall_remove_nth {A} (P : A -> Prop) (i : nat) (l : list A) :
  Forall P l -> Forall P (remove_nth i l).
Proof.
  revert i. induction l as [| x l IH]; intros i H; destruct i; simpl;
    try assumption; inversion H; subst; [assumption |].
  constructor; [assumption | now apply IH].
Qed.

Lemma prefix_data_shown (result : string) :
  String.prefix "data:" result = true -> shown (Some result) = true.
Proof.
  destruct result; [discriminate | reflexivity].
Qed.

Lemma act_keeps_ok (rt : Runtime) (a : Action) (w w' : World) :
  world_ok w -> act rt a w = Some w' -> world_ok w'.
Proof.
  intros [Hlen [Hload [Hreaders [Hreqs [Himg Hprev]]]]] Hact.
  destruct a as [files | files | | | i result | i | | i o | | o]; simpl in Hact.
  - (* Drop *)
    destruct (dropZoneRendered (ui w)); [| discriminate Hact].
    destruct (handleDrop files (ui w)) as [s' file] eqn:Hd. injection Hact as <-.
    unfold handleDrop in Hd.
    assert (H : s' = fst (handleImageUpload (hd_error files) (setIsDragging false (ui w))) /\
                file = snd (handleImageUpload (hd_error files) (setIsDragging false (ui w)))).
    { destruct files as [| f rest]; [injection Hd as <- <-; now split |].
      cbn [hd_error]. rewrite Hd. now split. }
    destruct H as [-> ->].
    destruct (handleImageUpload_frame (hd_error files) (setIsDragging false (ui w)))
      as [Hi [Hp [Hl Hs]]].
    unfold world_ok, previewRendered. simpl. rewrite Hi, Hp, Hl. simpl.
    repeat split; try assumption; try apply Hload; try (apply Forall_app; now split).
  - (* Pick *)
    destruct (triggerFileInput (ui w)); [| discriminate Hact].
    destruct (handleFileInput files (ui w)) as [s' file] eqn:Hd. injection Hact as <-.
    unfold handleFileInput in Hd.
    assert (H : s' = fst (handleImageUpload (hd_error files) (ui w)) /\
                file = snd (handleImageUpload (hd_error files) (ui w))).
    { destruct files as [| f rest]; [injection Hd as <- <-; now split |].
      cbn [hd_error]. rewrite Hd. now split. }
    destruct H as [-> ->].
    destruct (handleImageUpload_frame (hd_error files) (ui w)) as [Hi [Hp [Hl Hs]]].
    unfold world_ok, previewRendered. simpl. rewrite Hi, Hp, Hl.
    repeat split; try assumption; try apply Hload; try (apply Forall_app; now split).
  - (* Drag *)
    destruct (dropZoneRendered (ui w)); [| discriminate Hact]. injection Hact as <-.
    repeat split; try assumption; apply Hload.
  - (* Undrag *)
    destruct (dropZoneRendered (ui w)); [| discriminate Hact]. injection Hact as <-.
    repeat split; try assumption; apply Hload.
  - (* ReadDone *)
    destruct (nth_error (readers w) i) as [file |] eqn:Hn; [| discriminate Hact].
    destruct (String.prefix "data:" result) eqn:Hpre; [| discriminate Hact].
    injection Hact as <-.
    unfold world_ok, previewRendered. simpl.
    repeat split; try assumption; try apply Hload.
    + now apply Forall_remove_nth.
    + intros f Hf. injection Hf as <-.
      apply (proj1 (Forall_forall validated (readers w)) Hreaders).
      now apply (nth_error_In _ i).
    + now apply (prefix_data_shown result).
  - (* ReadError *)
    destruct (nth_error (readers w) i) as [file |] eqn:Hn; [| discriminate Hact].
    injection Hact as <-.
    repeat split; try assumption; try apply Hload. now apply Forall_remove_nth.
  - (* ClickSubmit *)
    unfold submitEnabled in Hact.
    destruct (previewRendered (ui w)) eqn:Hshown; [| discriminate Hact].
    destruct (loading (ui w)) eqn:Hl; [discriminate Hact |]. simpl in Hact.
    unfold handleSubmit in Hact.
    destruct (image (ui w)) as [img |] eqn:Hi; [| discriminate Hprev].
    injection Hact as <-.
    assert (Hnone : requests w = []).
    { destruct (requests w) as [| x l]; [reflexivity |].
      assert (false = true) by (apply Hload; discriminate). discriminate. }
    unfold world_ok, previewRendered. simpl. rewrite Hnone, Hi. simpl.
    repeat split; try assumption; try discriminate; try lia.
    repeat constructor. now apply Himg.
  - (* Answer *)
    destruct (nth_error (requests w) i) as [img |] eqn:Hn; [| discriminate Hact].
    injection Hact as <-.
    destruct (settled_frame rt o (ui w)) as [Hi [Hp [_ [_ Hl]]]].
    assert (Hone : remove_nth i (requests w) = []).
    { destruct (requests w) as [| x [| y l]]; [destruct i; discriminate Hn | |
                                                simpl in Hlen; lia].
      destruct i as [| [| j]]; [reflexivity | discriminate Hn | discriminate Hn]. }
    unfold world_ok, previewRendered. simpl. rewrite Hone, Hi, Hp, Hl. simpl.
    repeat split; try assumption; try discriminate; try lia; try constructor.
    intros H. contradiction.
  - (* ClickReset *)
    destruct (previewRendered (ui w)); [| discriminate Hact]. injection Hact as <-.
    unfold world_ok, previewRendered. simpl.
    repeat split; try assumption; try apply Hload; try discriminate.
  - (* InfoAnswer *)
    destruct (infoPending w); [| discriminate Hact]. injection Hact as <-.
    unfold world_ok, previewRendered. destruct o; simpl;
      repeat split; try assumption; apply Hload.
Qed.

Lemma ui_reachable_ok (rt : Runtime) (w : World) : ui_reachable rt w -> world_ok w.
Proof.
  induction 1 as [| w a w' _ IH Hact].
  - unfold world_ok. simpl. split; [lia |].
    split; [split; [discriminate | intros H; now contradiction H] |].
    repeat split; try constructor; discriminate.
  - exact (act_keeps_ok rt a w w' IH Hact).
Qed.

(** X8. The page never has two classification requests in flight, and
    [loading] is on exactly while one is: the Identify button is disabled
    from the click to the answer, also across a reset and a new file, so a
    second click is not offered before the first request is settled. *)
Theorem one_request_at_a_time (rt : Runtime) (w : World) :
  ui_reachable rt w ->
  (List.length (requests w) <= 1)%nat /\
  (loading (ui w) = true <-> List.length (requests w) = 1%nat) /\
  (requests w <> [] -> act rt ClickSubmit w = None).
Proof.
  intros Hr. destruct (ui_reachable_ok rt w Hr) as [Hlen [Hload _]].
  split; [exact Hlen |]. split; [| intros Hreq].
  - rewrite Hload. destruct (requests w) as [| x [| y l]]; simpl in *.
    + split; [intros H; now contradiction H | discriminate].
    + split; [reflexivity | discriminate].
    + lia.
  - simpl. unfold submitEnabled. rewrite (proj2 Hload Hreq).
    now destruct (previewRendered (ui w)).
Qed.

Lemma one_request_at_a_time_witness :
  (List.length (requests ready_world) <= 1)%nat.
Proof.
  apply (one_request_at_a_time v8 ready_world).
  apply (ui_reachable_run v8
           [Drop [fish_png]; ReadDone 0 "data:image/png;base64,iVBORw0KGgo="] mounted).
  - constructor.
  - reflexivity.
Defined.

Lemma validated_file (file : File) :
  validated file ->
  In (file_type file) validTypes /\ (file_size file <= maxSize)%N.
Proof.
  unfold validated, validate.
  destruct (includes validTypes (file_type file)) eqn:Ht; cbn [negb]; [| discriminate].
  destruct (maxSize <? file_size file)%N eqn:Hs; [discriminate |]. intros _.
  split; [now apply includes_In | now apply N.ltb_ge].
Qed.

(** X9. Validation cannot be got round: every file whose preview is being
    read, every stored image and every image sent to the service has passed
    the validator, so it has one of the six accepted types and at most
    16 * 1024 * 1024 bytes. *)
Theorem only_validated_files_are_used (rt : Runtime) (w : World) :
  ui_reachable rt w ->
  forall file,
    In file (readers w) \/ image (ui w) = Some file \/ In file (requests w) ->
    validate file = Accepted /\
    In (file_type file) validTypes /\ (file_size file <= maxSize)%N.
Proof.
  intros Hr file H.
  destruct (ui_reachable_ok rt w Hr) as [_ [_ [Hreaders [Hreqs [Himg _]]]]].
  assert (Hv : validated file).
  { destruct H as [H | [H | H]].
    - now apply (proj1 (Forall_forall validated (readers w)) Hreaders).
    - now apply Himg.
    - now apply (proj1 (Forall_forall validated (requests w)) Hreqs). }
  split; [exact Hv | now apply validated_file].
Qed.

Lemma only_validated_files_are_used_witness :
  validate fish_png = Accepted /\
  In (file_type fish_png) validTypes /\ (file_size fish_png <= maxSize)%N.
Proof.
  apply (only_validated_files_are_used v8 ready_world).
  - apply (ui_reachable_run v8
             [Drop [fish_png]; ReadDone 0 "data:image/png;base64,iVBORw0KGgo="] mounted).
    + constructor.
    + reflexivity.
  - right. left. reflexivity.
Defined.

(** X10. Whenever the Identify button can be clicked, an image is stored:
    the click clears the error and the summary, turns [loading] on and
    starts the one request, for that image.  The guard of [handleSubmit]
    (["Please select an image first"]) is never taken on the page. *)
Theorem identify_always_finds_an_image (rt : Runtime) (w : World) :
  ui_reachable rt w -> submitEnabled (ui w) = true ->
  exists img,
    image (ui w) = Some img /\ validate img = Accepted /\
    act rt ClickSubmit w =
    Some {| ui := setSuccess None (setError None (setLoading true (ui w)));
            readers := readers w; requests := [img]; infoPending := infoPending w |}.
Proof.
  intros Hr Hen. destruct (ui_reachable_ok rt w Hr) as [_ [Hload [_ [_ [Himg Hprev]]]]].
  simpl. rewrite Hen. unfold submitEnabled in Hen.
  apply andb_true_iff in Hen as [Hshown Hl]. apply negb_true_iff in Hl.
  rewrite Hshown in Hprev. unfold handleSubmit.
  destruct (image (ui w)) as [img |]; [| discriminate Hprev].
  exists img. split; [reflexivity |]. split; [now apply Himg |].
  destruct (requests w) as [| x l]; [reflexivity |].
  assert (loading (ui w) = true) by (apply Hload; discriminate). congruence.
Qed.

Lemma identify_always_finds_an_image_witness :
  exists img,
    image (ui ready_world) = Some img /\ validate img = Accepted /\
    act v8 ClickSubmit ready_world =
    Some {| ui := setSuccess None (setError None (setLoading true (ui ready_world)));
            readers := readers ready_world; requests := [img];
            infoPending := infoPending ready_world |}.
Proof.
  apply (identify_always_finds_an_image v8 ready_world).
  - apply (ui_reachable_run v8
             [Drop [fish_png]; ReadDone 0 "data:image/png;base64,iVBORw0KGgo="] mounted).
    + constructor.
    + reflexivity.
  - reflexivity.
Defined.

(** X11. While an image is stored the page offers no way to another file:
    the drop zone and the file input are not rendered, so a drop or a choice
    of file cannot happen and [triggerFileInput], which the Change Image
    button calls, opens no picker; the reset button is there, and after a
    reset the drop zone is back. *)
Theorem stored_image_blocks_selection (rt : Runtime) (w : World) :
  ui_reachable rt w -> image (ui w) <> None ->
  triggerFileInput (ui w) = false /\
  (forall files, act rt (Drop files) w = None /\ act rt (Pick files) w = None) /\
  act rt ClickReset w = Some (with_ui (handleReset (ui w)) w) /\
  triggerFileInput (handleReset (ui w)) = true.
Proof.
  intros Hr Hi. destruct (ui_reachable_ok rt w Hr) as [_ [_ [_ [_ [_ Hprev]]]]].
  assert (Hshown : previewRendered (ui w) = true).
  { rewrite Hprev. now destruct (image (ui w)). }
  assert (Hzone : dropZoneRendered (ui w) = false).
  { unfold dropZoneRendered. unfold previewRendered in Hshown. now rewrite Hshown. }
  split; [exact Hzone |]. split; [| split; [| reflexivity]].
  - intros files. simpl. unfold triggerFileInput. now rewrite Hzone.
  - simpl. now rewrite Hshown.
Qed.

Lemma stored_image_blocks_selection_witness :
  triggerFileInput (ui ready_world) = false.
Proof.
  apply (stored_image_blocks_selection v8 ready_world).
  - apply (ui_reachable_run v8
             [Drop [fish_png]; ReadDone 0 "data:image/png;base64,iVBORw0KGgo="] mounted).
    + constructor.
    + reflexivity.
  - discriminate.
Defined.
